(** * ai_code_reviewer.py: a shallow embedding of the review pipeline

    The program clones a repository into a scratch directory, collects its
    source files, packs them into a size-bounded prompt, posts the prompt to a
    chat-completion endpoint and writes the answer to a report file.

    Conventions of the embedding:
    - a Python [str] is the list of its code points ([str]); [len] is the
      number of code points; a literal of the source is written [py "..."];
    - a [pathlib.Path] is the list of its [parts] (POSIX flavour, relative
      to the working directory);
    - a raised exception is a value of [exn]: its class and [str(e)]; code
      that may raise returns a [result];
    - the file system and the log of external effects are threaded through
      [main] as a [world]; the git subprocess and the HTTP endpoint are
      parameters of the run, collected in [env].

    What is taken from the libraries the program calls (CPython 3.11):
    - the Unicode tables behind [str.lower], [repr] and the names of the
      signals are parameters, collected in [pylib];
    - [pathlib]: [suffix] is computed from the final component with
      [rfind('.')], [str] joins the parts with [/], and paths are ordered as
      the sequences of their parts;
    - the file system has regular files and directories only (no symbolic
      links), and every directory can be listed and traversed; what reading
      a file yields (its text, or the error of the read: undecodable bytes,
      no permission) is part of the file; [shutil.rmtree] removes a
      directory and raises on anything else;
    - [git clone] acts on the clone directory only;
    - [main] is modelled from the point where its arguments are parsed. *)

From Stdlib Require Import ZArith NArith Ascii.
From stdpp Require Import base tactics option list sorting strings pretty gmap.

Local Open Scope Z_scope.

(** ** Strings *)

(** A string is the sequence of its code points. *)
Definition str := list N.

(** A literal of the source, character by character (all but one of the
    literals of the program are ASCII; the other is spelled out below). *)
Fixpoint py (s : string) : str :=
  match s with
  | EmptyString => []
  | String a s' => N_of_ascii a :: py s'
  end.

Definition NL : str := [10%N].

(** [len(s)] *)
Definition len (s : str) : Z := Z.of_nat (length s).

(** [''.join(l)] *)
Fixpoint join (l : list str) : str :=
  match l with
  | [] => []
  | s :: l' => s ++ join l'
  end.

(** [sep.join(l)] *)
Fixpoint join_with (sep : str) (l : list str) : str :=
  match l with
  | [] => []
  | [s] => s
  | s :: l' => s ++ sep ++ join_with sep l'
  end.

(** [s[n:]] for [n >= 0] *)
Definition slice_from (n : nat) (s : str) : str := drop n s.

(** [s.rfind(c)]: the highest index of [c] in [s], or [-1]. The scan keeps the
    current index [i] and the last index seen so far. *)
Fixpoint rfind_from (c : N) (s : str) (i last : Z) : Z :=
  match s with
  | [] => last
  | a :: s' => rfind_from c s' (i + 1) (if N.eqb a c then i else last)
  end.

Definition rfind (c : N) (s : str) : Z := rfind_from c s 0 (-1).

(** [n] in hexadecimal, on [width] digits, lower case. *)
Definition hex_digit (d : N) : N := if (d <? 10)%N then (48 + d)%N else (87 + d)%N.

Fixpoint hex (width : nat) (n : N) : str :=
  match width with
  | O => []
  | S w => hex w (n / 16)%N ++ [hex_digit (n mod 16)%N]
  end.

(** ** The tables of the Python runtime *)

(** What the program uses of the Unicode database and of the platform:
    [lower_ucs4 s i c] is the lower-case mapping of the character [c] at
    index [i] of [s] (one or more code points; it may depend on the
    neighbours of [c]); [isprintable c] is [str.isprintable] for one
    non-ASCII character; [signal_name n] is the name of the signal of
    number [n], if there is one. *)
Record pylib := PyLib {
  lower_ucs4 : str → nat → N → str;
  isprintable : N → bool;
  signal_name : Z → option str
}.

(** A runtime for the examples: CPython's tables on ASCII and Latin-1, and
    the Kelvin sign U+212A, whose lower case is the letter k. It leaves the
    other characters as they are and prints them escaped, and it knows the
    signals 9 and 15. *)
Definition sample_lib : pylib :=
  PyLib (λ _ _ c,
           if (((65 <=? c) && (c <=? 90))
               || ((192 <=? c) && (c <=? 222) && negb (c =? 215)))%N
           then [(c + 32)%N]
           else if (c =? 8490)%N then [107%N]
           else [c])
        (λ c, ((161 <=? c) && (c <=? 255) && negb (c =? 173))%N)
        (λ n, if decide (n = 9) then Some (py "SIGKILL")
              else if decide (n = 15) then Some (py "SIGTERM") else None).

(** ** Exceptions and results *)

Inductive exn_class :=
  | Exception | ValueError | KeyError | IndexError | TypeError
  | JSONDecodeError | CalledProcessError | ConnectionError
  | FileNotFoundError | NotADirectoryError | IsADirectoryError
  | PermissionError | UnicodeDecodeError | UnicodeEncodeError.

(** An exception object: its class and [str(e)]. Every class above derives
    from Python's [Exception]. *)
Record exn := Exc { exn_class_of : exn_class; exn_str : str }.

Inductive result (A : Type) :=
  | Ok (a : A)
  | Raise (e : exn).
Arguments Ok {A} a.
Arguments Raise {A} e.

Definition is_ok {A} (r : result A) : bool :=
  match r with Ok _ => true | Raise _ => false end.

(** [try: body  except Exception as e: handler(e)] *)
Definition try_except {A} (body : result A) (handler : exn → result A) : result A :=
  match body with
  | Ok a => Ok a
  | Raise e => handler e
  end.

(** ** Paths *)

Definition path := list str.

(** [str(p)] *)
Definition path_str (p : path) : str :=
  match p with
  | [] => py "."
  | _ => join_with (py "/") p
  end.

(** [p.name]: the final component, or [''] *)
Definition name (p : path) : str := List.last p [].

(** The code point of the dot. *)
Definition dot : N := 46%N.

(** [p.suffix], as [pathlib.PurePath.suffix] computes it:
    [i = name.rfind('.')], then [name[i:]] if [0 < i < len(name) - 1],
    else ['']. *)
Definition suffix (p : path) : str :=
  let nm := name p in
  let i := rfind dot nm in
  if (0 <? i) && (i <? len nm - 1) then slice_from (Z.to_nat i) nm else [].

(** The prefix test of [p.relative_to(root)]. *)
Fixpoint strip_prefix (root p : path) : option path :=
  match root, p with
  | [], _ => Some p
  | r :: root', x :: p' => if decide (r = x) then strip_prefix root' p' else None
  | _ :: _, [] => None
  end.

(** ** Configuration *)

Definition SUPPORTED_EXTENSIONS : gset str :=
  list_to_set (py <$>
    [".py"; ".js"; ".ts"; ".jsx"; ".tsx"; ".java"; ".cpp"; ".c"; ".h"; ".hpp";
     ".cs"; ".go"; ".rs"; ".rb"; ".php"; ".swift"; ".kt"; ".scala"; ".html"; ".css";
     ".scss"; ".sass"; ".json"; ".yaml"; ".yml"; ".md"; ".sh"; ".bash"; ".sql"]).

Definition EXCLUDE_DIRS : gset str :=
  list_to_set (py <$>
    ["__pycache__"; "node_modules"; "venv"; "env"; ".git"; ".svn"; ".hg";
     "dist"; "build"; "target"; "out"; "bin"; "obj"; ".idea"; ".vscode";
     ".DS_Store"; "Thumbs.db"]).

Definition MAX_TOTAL_CHARS : Z := 100000.

(** ** build_prompt *)

Definition intro (repo_url : str) : str :=
  py "You are an expert software engineer performing a professional code review " ++
  py "for the GitHub repository: " ++ repo_url ++ NL ++ NL ++
  py "Review the following code files. Focus on:" ++ NL ++
  py "- Code quality, readability, and maintainability" ++ NL ++
  py "- Potential bugs or security issues" ++ NL ++
  py "- Performance concerns" ++ NL ++
  py "- Adherence to best practices" ++ NL ++
  py "- Suggestions for improvement (be specific and constructive)" ++ NL ++ NL ++
  py "Provide your feedback in the following format:" ++ NL ++ NL ++
  py "## Summary" ++ NL ++
  py "<Brief overall assessment>" ++ NL ++ NL ++
  py "## Findings" ++ NL ++
  py "- [Severity: High/Medium/Low] in `filename`: <description>" ++ NL ++
  py "- ..." ++ NL ++ NL ++
  py "## Recommendations" ++ NL ++
  py "<General advice for the project>" ++ NL ++ NL ++
  py "---" ++ NL ++ NL.

(** The language tag of a fenced block: [file_path.suffix[1:]]. *)
Definition lang_tag (file_path : path) : str := slice_from 1 (suffix file_path).

(** The block of one file:
    [f"### {file_path}\n\n```{file_path.suffix[1:]}\n{content}\n```\n\n"]. *)
Definition block (snippet : path * str) : str :=
  let '(file_path, content) := snippet in
  py "### " ++ path_str file_path ++ NL ++ NL ++
  py "```" ++ lang_tag file_path ++ NL ++
  content ++ NL ++
  py "```" ++ NL ++ NL.

(** The [for] loop of [build_prompt], with its two variables [file_blocks]
    and [total_chars]; [break] returns the blocks gathered so far. *)
Fixpoint pack (code_snippets : list (path * str))
    (file_blocks : list str) (total_chars : Z) : list str :=
  match code_snippets with
  | [] => file_blocks
  | snippet :: rest =>
      let blk := block snippet in
      if total_chars + len blk >? MAX_TOTAL_CHARS then file_blocks
      else pack rest (file_blocks ++ [blk]) (total_chars + len blk)
  end.

Definition build_prompt (code_snippets : list (path * str)) (repo_url : str) : str :=
  let intro := intro repo_url in
  intro ++ join (pack code_snippets [] (len intro)).

(** ** The file system *)

(** A node is a regular file or a directory. A file carries what
    [open(p, 'r', encoding='utf-8').read()] produces for it: its text, or the
    exception the read ends in (undecodable bytes, no permission). A
    directory lists its entries in the order the operating system
    enumerates them. *)
Local Unset Elimination Schemes.
Inductive node :=
  | File (read : result str)
  | Dir (entries : list (str * node)).
Local Set Elimination Schemes.

(** The first entry of a directory listing that carries the name [x]. *)
Fixpoint entry_lookup (x : str) (es : list (str * node)) : option node :=
  match es with
  | [] => None
  | e :: es' => if decide (e.1 = x) then Some e.2 else entry_lookup x es'
  end.

(** The node a path leads to, from the node [n]. *)
Fixpoint fs_lookup (p : path) (n : node) : option node :=
  match p with
  | [] => Some n
  | x :: p' =>
      match n with
      | File _ => None
      | Dir es =>
          match entry_lookup x es with
          | Some c => fs_lookup p' c
          | None => None
          end
      end
  end.

(** Whether a path runs through a regular file before its end: the system
    then answers [ENOTDIR] and not [ENOENT]. *)
Fixpoint through_file (p : path) (n : node) : bool :=
  match p with
  | [] => false
  | x :: p' =>
      match n with
      | File _ => true
      | Dir es =>
          match entry_lookup x es with
          | Some c => through_file p' c
          | None => false
          end
      end
  end.

(** Removal of the whole subtree at a path. *)
Fixpoint fs_remove (p : path) (n : node) : node :=
  match p with
  | [] => n
  | x :: p' =>
      match n with
      | File _ => n
      | Dir es =>
          match p' with
          | [] => Dir (filter (λ e, e.1 ≠ x) es)
          | _ :: _ =>
              Dir ((λ e, if decide (e.1 = x) then (e.1, fs_remove p' e.2) else e) <$> es)
          end
      end
  end.

(** Creation or replacement of the node at a path. *)
Fixpoint fs_put (p : path) (new : node) (n : node) : node :=
  match p with
  | [] => new
  | x :: p' =>
      match n with
      | File _ => n
      | Dir es =>
          match entry_lookup x es with
          | Some _ =>
              Dir ((λ e, if decide (e.1 = x) then (e.1, fs_put p' new e.2) else e) <$> es)
          | None => Dir (es ++ [(x, fs_put p' new (Dir []))])
          end
      end
  end.

(** [p.exists()] and [p.is_file()] *)
Definition path_exists (t : node) (p : path) : bool :=
  match fs_lookup p t with Some _ => true | None => false end.

Definition is_file (t : node) (p : path) : bool :=
  match fs_lookup p t with Some (File _) => true | _ => false end.

(** Sibling names are unique, at every level. *)
Fixpoint wf_node (n : node) : Prop :=
  match n with
  | File _ => True
  | Dir es =>
      NoDup (es.*1) ∧
      (fix all (es : list (str * node)) : Prop :=
         match es with
         | [] => True
         | e :: es' => wf_node e.2 ∧ all es'
         end) es
  end.

(** [root.rglob('*')] on the node [n] found at [root]: every entry below
    [root], a directory's own entries first and then those of its
    subdirectories. Nothing is produced when [root] is not a directory. *)
Fixpoint rglob (root : path) (n : node) : list path :=
  match n with
  | File _ => []
  | Dir es =>
      ((λ e, root ++ [e.1]) <$> es) ++
      (fix below (es : list (str * node)) : list path :=
         match es with
         | [] => []
         | e :: es' => rglob (root ++ [e.1]) e.2 ++ below es'
         end) es
  end.

(** ** The order of paths *)

(** Order of strings: code point by code point. *)
Fixpoint str_compare (s1 s2 : str) : comparison :=
  match s1, s2 with
  | [], [] => Eq
  | [], _ :: _ => Lt
  | _ :: _, [] => Gt
  | a :: s1', b :: s2' =>
      match N.compare a b with
      | Eq => str_compare s1' s2'
      | c => c
      end
  end.

(** Order of [Path] objects: the parts are compared as sequences of strings. *)
Fixpoint path_compare (p q : path) : comparison :=
  match p, q with
  | [], [] => Eq
  | [], _ :: _ => Lt
  | _ :: _, [] => Gt
  | x :: p', y :: q' =>
      match str_compare x y with
      | Eq => path_compare p' q'
      | c => c
      end
  end.

(** [p < q] *)
Definition path_lt (p q : path) : Prop := path_compare p q = Lt.

(** [sorted(l)]: a stable merge sort that takes the left element unless the
    right one is smaller. *)
Definition not_after (p q : path) : Prop := ¬ path_lt q p.

#[global] Instance path_lt_dec (p q : path) : Decision (path_lt p q).
Proof. unfold path_lt. solve_decision. Defined.

#[global] Instance not_after_dec (p q : path) : Decision (not_after p q).
Proof. unfold not_after. apply _. Defined.

Definition sorted (l : list path) : list path := merge_sort not_after l.

(** [any(part in EXCLUDE_DIRS for part in parts)] *)
Definition any_excluded (parts : list str) : bool :=
  existsb (λ part, bool_decide (part ∈ EXCLUDE_DIRS)) parts.

(** ** JSON values and the HTTP exchange *)

(** What [response.json()] decodes to: [None], [bool], [int], [float] (kept
    as its literal), [str], [list] and [dict]. *)
Local Unset Elimination Schemes.
Inductive json :=
  | JNull
  | JBool (b : bool)
  | JInt (n : Z)
  | JFloat (literal : str)
  | JStr (s : str)
  | JArr (items : list json)
  | JObj (members : list (str * json)).
Local Set Elimination Schemes.

(** [type(v).__name__] *)
Definition type_name (v : json) : str :=
  match v with
  | JNull => py "NoneType"
  | JBool _ => py "bool"
  | JInt _ => py "int"
  | JFloat _ => py "float"
  | JStr _ => py "str"
  | JArr _ => py "list"
  | JObj _ => py "dict"
  end.

(** The value of a key in a decoded object: of several members with the same
    key, the decoder keeps the last. *)
Fixpoint member_lookup (k : str) (members : list (str * json)) : option json :=
  match members with
  | [] => None
  | m :: rest =>
      match member_lookup k rest with
      | Some v => Some v
      | None => if decide (m.1 = k) then Some m.2 else None
      end
  end.

Record request := Request {
  req_url : str;
  req_headers : list (str * str);
  req_json : json
}.

(** A [requests.Response]: [status_code], [text], and what [json()] yields
    (the decoded body, or the decoding error). *)
Record response := Response {
  status_code : Z;
  text : str;
  json_of : result json
}.

(** ** The world of a run *)

Inductive event :=
  | EvPrint (line : str)
  | EvRmtree (p : path)
  | EvGitClone (repo_url : str) (clone_dir : path)
  | EvPost (rq : request)
  | EvWriteText (p : path) (data : str).

(** The working directory and the log of effects, oldest first. *)
Record world := World { fs : node; log : list event }.

(** What the outside does in a run. [git_clone] gives the exit status of
    [git clone --depth=1 repo_url clone_dir] and the listing of the directory
    it leaves at [clone_dir] (if any); [requests_post] gives the response to a
    request, or the exception [requests.post] raises; [resolve] gives
    [str(p.resolve())]. *)
Record env := Env {
  git_clone : str → path → Z * option (list (str * node));
  requests_post : request → result response;
  resolve : path → str
}.

(** Computations over the world that may raise. *)
Definition M (A : Type) : Type := world → result A * world.

Definition ret {A} (a : A) : M A := λ w, (Ok a, w).
Definition raise {A} (e : exn) : M A := λ w, (Raise e, w).
Definition bind {A B} (m : M A) (k : A → M B) : M B :=
  λ w, match m w with
       | (Ok a, w') => k a w'
       | (Raise e, w') => (Raise e, w')
       end.
Definition lift {A} (r : result A) : M A := λ w, (r, w).
Definition get_fs : M node := λ w, (Ok (fs w), w).
Definition set_fs (t : node) : M unit := λ w, (Ok (), World t (log w)).
Definition emit (ev : event) : M unit := λ w, (Ok (), World (fs w) (log w ++ [ev])).

Declare Scope py_scope.
Delimit Scope py_scope with py.
Notation "x <- m ;; k" := (bind m (λ x, k))
  (at level 100, m at next level, right associativity) : py_scope.
Notation "m ;;; k" := (bind m (λ _, k))
  (at level 100, right associativity) : py_scope.
Local Open Scope py_scope.

(** [try: body  finally: final]. The [finally] block runs on both exits; an
    exception it raises replaces the outcome of the body. *)
Definition try_finally {A} (body : M A) (final : M unit) : M A :=
  λ w, match body w with
       | (r, w1) =>
           match final w1 with
           | (Ok _, w2) => (r, w2)
           | (Raise e, w2) => (Raise e, w2)
           end
       end.

Definition print (line : str) : M unit := emit (EvPrint line).

(** The strict UTF-8 codec refuses the surrogates. *)
Definition is_surrogate (c : N) : bool := ((55296 <=? c) && (c <=? 57343))%N.

Definition encodable (s : str) : bool := forallb (λ c, negb (is_surrogate c)) s.

(** The index of the first surrogate from index [i] on, with the character. *)
Fixpoint first_surrogate (s : str) (i : nat) : option (nat * N) :=
  match s with
  | [] => None
  | c :: s' => if is_surrogate c then Some (i, c) else first_surrogate s' (S i)
  end.

(** The number of surrogates in a row at the head of [s]. *)
Fixpoint surrogate_run (s : str) : nat :=
  match s with
  | [] => O
  | c :: s' => if is_surrogate c then S (surrogate_run s') else O
  end.

(** The [UnicodeEncodeError] of writing [s] with the UTF-8 codec. *)
Definition unicode_encode_error (s : str) : exn :=
  Exc UnicodeEncodeError
    match first_surrogate s 0 with
    | Some (i, c) =>
        let n := surrogate_run (drop i s) in
        if decide (n = 1%nat) then
          py "'utf-8' codec can't encode character '\u" ++ hex 4 c ++
          py "' in position " ++ py (pretty i) ++ py ": surrogates not allowed"
        else
          py "'utf-8' codec can't encode characters in position " ++ py (pretty i) ++
          py "-" ++ py (pretty (i + n - 1)%nat) ++ py ": surrogates not allowed"
    | None => []
    end.

Definition clone_dir : path := [py "temp_repo_clone"].

Definition no_files_line : str := py "No supported code files found in the repository!".

(** [f"Cloning {repo_url} into {clone_dir}..."] *)
Definition cloning_line (repo_url : str) (clone_dir : path) : str :=
  py "Cloning " ++ repo_url ++ py " into " ++ path_str clone_dir ++ py "...".

Definition review_url : str := py "https://openrouter.ai/api/v1/chat/completions".

Definition review_request (prompt api_key : str) : request :=
  Request review_url
    [(py "Authorization", py "Bearer " ++ api_key);
     (py "HTTP-Referer", py "https://github.com/lemon085");
     (py "X-Title", py "AI Code Reviewer");
     (py "Content-Type", py "application/json")]
    (JObj [(py "model", JStr (py "openai/gpt-4o"));
           (py "messages",
            JArr [JObj [(py "role", JStr (py "user")); (py "content", JStr prompt)]]);
           (py "temperature", JFloat (py "0.2"));
           (py "max_tokens", JInt 2000)]).

Definition api_error (r : response) : exn :=
  Exc Exception
    (py "OpenRouter API error: " ++ py (pretty (status_code r)) ++ py " - " ++ text r).

(** The closing message of [main]; its first three characters after the
    line break are U+00E2, U+0153 and U+2026, as the source file has them. *)
Definition saved_line (E : env) (output_file : path) : str :=
  NL ++ [226%N; 339%N; 8230%N] ++ py " Code review report saved to: " ++
  resolve E output_file.

(** ** The program, over the tables of the runtime *)

Section model.
Variable L : pylib.

(** [s.lower()]: the lower-case mapping of every character, in order. *)
Fixpoint lower_from (s : str) (i : nat) (rest : str) : str :=
  match rest with
  | [] => []
  | c :: rest' => lower_ucs4 L s i c ++ lower_from s (S i) rest'
  end.

Definition lower (s : str) : str := lower_from s 0 s.

(** [repr(s)] for a string: quotes, with the escapes of a literal. *)
Definition repr_char (quote c : N) : str :=
  if decide (c = quote ∨ c = 92%N) then [92%N; c]
  else if decide (c = 9%N) then py "\t"
  else if decide (c = 10%N) then py "\n"
  else if decide (c = 13%N) then py "\r"
  else if ((c <? 32) || (c =? 127))%N then py "\x" ++ hex 2 c
  else if (c <? 127)%N then [c]
  else if isprintable L c then [c]
  else if (c <? 256)%N then py "\x" ++ hex 2 c
  else if (c <? 65536)%N then py "\u" ++ hex 4 c
  else py "\U" ++ hex 8 c.

Definition repr (s : str) : str :=
  let quote := if bool_decide (39%N ∈ s) && negb (bool_decide (34%N ∈ s))
               then 34%N else 39%N in
  [quote] ++ mjoin (repr_char quote <$> s) ++ [quote].

(** [str(l)] for a list of strings *)
Definition repr_list (l : list str) : str :=
  py "[" ++ join_with (py ", ") (repr <$> l) ++ py "]".

(** [p.relative_to(root)]: [ValueError] unless [root] is a prefix of [p]. *)
Definition relative_to (p root : path) : result path :=
  match strip_prefix root p with
  | Some rel => Ok rel
  | None =>
      Raise (Exc ValueError
        (repr (path_str p) ++ py " is not in the subpath of " ++ repr (path_str root) ++
         py " OR one path is relative and the other is absolute."))
  end.

(** ** collect_code_files *)

(** The [for] loop of [collect_code_files] over the paths [rglob] yields. *)
Fixpoint collect_loop (t : node) (root : path) (paths : list path)
    (code_files : list path) : result (list path) :=
  match paths with
  | [] => Ok code_files
  | file_path :: rest =>
      if is_file t file_path then
        if bool_decide (lower (suffix file_path) ∈ SUPPORTED_EXTENSIONS) then
          match relative_to file_path root with
          | Raise e => Raise e
          | Ok rel_path =>
              let parts := rel_path in
              if negb (any_excluded parts)
              then collect_loop t root rest (code_files ++ [file_path])
              else collect_loop t root rest code_files
          end
        else collect_loop t root rest code_files
      else collect_loop t root rest code_files
  end.

Definition collect_code_files (t : node) (root : path) : result (list path) :=
  let paths := match fs_lookup root t with Some n => rglob root n | None => [] end in
  match collect_loop t root paths [] with
  | Ok code_files => Ok (sorted code_files)
  | Raise e => Raise e
  end.

(** The specification side of the collector: [p] is a regular file strictly
    below [root] with an allowed extension and no excluded component. *)
Definition selected (t : node) (root p : path) : Prop :=
  ∃ rel, p = root ++ rel ∧ rel ≠ [] ∧ is_file t p = true ∧
         lower (suffix p) ∈ SUPPORTED_EXTENSIONS ∧
         ∀ part, part ∈ rel → part ∉ EXCLUDE_DIRS.

(** ** read_file_safe *)

(** The [OSError]s of the file operations, with [str(e)] as Python prints it. *)
Definition not_a_directory (p : path) : exn :=
  Exc NotADirectoryError (py "[Errno 20] Not a directory: " ++ repr (path_str p)).

Definition no_such_file (p : path) : exn :=
  Exc FileNotFoundError (py "[Errno 2] No such file or directory: " ++ repr (path_str p)).

Definition is_a_directory (p : path) : exn :=
  Exc IsADirectoryError (py "[Errno 21] Is a directory: " ++ repr (path_str p)).

(** The error of reaching a path that leads nowhere. *)
Definition lookup_error (t : node) (p : path) : exn :=
  if through_file p t then not_a_directory p else no_such_file p.

(** [open(file_path, 'r', encoding='utf-8')] followed by [f.read()] *)
Definition open_read (t : node) (file_path : path) : result str :=
  match fs_lookup file_path t with
  | None => Raise (lookup_error t file_path)
  | Some (Dir _) => Raise (is_a_directory file_path)
  | Some (File read) => read
  end.

Definition read_file_safe (t : node) (file_path : path) : result str :=
  try_except (open_read t file_path)
    (λ e, Ok (py "[ERROR reading file: " ++ exn_str e ++ py "]")).

(** ** Subscripts of decoded values *)

Definition not_subscriptable (v : json) : exn :=
  Exc TypeError (py "'" ++ type_name v ++ py "' object is not subscriptable").

(** [v[k]] for a string key [k] *)
Definition subscript_key (v : json) (k : str) : result json :=
  match v with
  | JObj members =>
      match member_lookup k members with
      | Some x => Ok x
      | None => Raise (Exc KeyError (repr k))
      end
  | JArr _ => Raise (Exc TypeError (py "list indices must be integers or slices, not str"))
  | JStr _ => Raise (Exc TypeError (py "string indices must be integers, not 'str'"))
  | _ => Raise (not_subscriptable v)
  end.

(** [v[i]] for an index [i >= 0]. A decoded [dict] has string keys only, so
    an integer key is never found in it. *)
Definition subscript_index (v : json) (i : nat) : result json :=
  match v with
  | JArr items =>
      match items !! i with
      | Some x => Ok x
      | None => Raise (Exc IndexError (py "list index out of range"))
      end
  | JStr s =>
      match s !! i with
      | Some c => Ok (JStr [c])
      | None => Raise (Exc IndexError (py "string index out of range"))
      end
  | JObj _ => Raise (Exc KeyError (py (pretty i)))
  | _ => Raise (not_subscriptable v)
  end.

(** ** clone_repo *)

(** The error of [shutil.rmtree] on a [Path] that is a regular file. *)
Definition rmtree_not_a_directory (p : path) : exn :=
  Exc NotADirectoryError
    (py "[Errno 20] Not a directory: PosixPath(" ++ repr (path_str p) ++ py ")").

(** [shutil.rmtree(p)] for a [Path]: removes a directory tree; a path that is
    not a directory is an error. *)
Definition rmtree (p : path) : M unit :=
  emit (EvRmtree p) ;;;
  t <- get_fs ;;
  match fs_lookup p t with
  | Some (Dir _) => set_fs (fs_remove p t)
  | Some (File _) => raise (rmtree_not_a_directory p)
  | None => raise (lookup_error t p)
  end.

(** [str(e)] of [subprocess.CalledProcessError(returncode, cmd)] *)
Definition called_process_error (cmd : list str) (returncode : Z) : exn :=
  Exc CalledProcessError
    (py "Command '" ++ repr_list cmd ++
     if returncode <? 0 then
       match signal_name L (- returncode) with
       | Some nm =>
           py "' died with <Signals." ++ nm ++ py ": " ++ py (pretty (- returncode)) ++ py ">."
       | None => py "' died with unknown signal " ++ py (pretty (- returncode)) ++ py "."
       end
     else py "' returned non-zero exit status " ++ py (pretty returncode) ++ py ".").

Definition git_clone_cmd (repo_url : str) (clone_dir : path) : list str :=
  [py "git"; py "clone"; py "--depth=1"; repo_url; path_str clone_dir].

(** [subprocess.run(['git', 'clone', '--depth=1', repo_url, str(clone_dir)],
    check=True)] *)
Definition run_git_clone (E : env) (repo_url : str) (clone_dir : path) : M unit :=
  emit (EvGitClone repo_url clone_dir) ;;;
  t <- get_fs ;;
  let '(returncode, created) := git_clone E repo_url clone_dir in
  match created with
  | Some es => set_fs (fs_put clone_dir (Dir es) t)
  | None => ret ()
  end ;;;
  if decide (returncode = 0) then ret ()
  else raise (called_process_error (git_clone_cmd repo_url clone_dir) returncode).

Definition clone_repo (E : env) (repo_url : str) (clone_dir : path) : M unit :=
  t <- get_fs ;;
  (if path_exists t clone_dir then rmtree clone_dir else ret ()) ;;;
  print (cloning_line repo_url clone_dir) ;;;
  run_git_clone E repo_url clone_dir.

(** ** get_code_review *)

(** [response.json()['choices'][0]['message']['content']] *)
Definition first_content (r : response) : result json :=
  match json_of r with
  | Raise e => Raise e
  | Ok body =>
      match subscript_key body (py "choices") with
      | Raise e => Raise e
      | Ok choices =>
          match subscript_index choices 0 with
          | Raise e => Raise e
          | Ok choice =>
              match subscript_key choice (py "message") with
              | Raise e => Raise e
              | Ok message => subscript_key message (py "content")
              end
          end
      end
  end.

(** The part of [get_code_review] after [requests.post] has returned. *)
Definition review_of_response (r : response) : result json :=
  if decide (status_code r ≠ 200) then Raise (api_error r) else first_content r.

Definition get_code_review (E : env) (prompt api_key : str) : M json :=
  let rq := review_request prompt api_key in
  print (py "Sending code to LLM for review...") ;;;
  emit (EvPost rq) ;;;
  r <- lift (requests_post E rq) ;;
  lift (review_of_response r).

(** ** main *)

(** [p.write_text(data, encoding='utf-8')]: [data] must be a [str]; the file
    is opened for writing (created or emptied) in an existing parent
    directory, and the text is then encoded and written. *)
Definition write_text (p : path) (data : json) : M unit :=
  match data with
  | JStr s =>
      emit (EvWriteText p s) ;;;
      t <- get_fs ;;
      match fs_lookup p t with
      | Some (Dir _) => raise (is_a_directory p)
      | _ =>
          match fs_lookup (removelast p) t with
          | Some (Dir _) =>
              if encodable s then set_fs (fs_put p (File (Ok s)) t)
              else (set_fs (fs_put p (File (Ok [])) t) ;;; raise (unicode_encode_error s))
          | _ => raise (lookup_error t p)
          end
      end
  | _ => raise (Exc TypeError (py "data must be str, not " ++ type_name data))
  end.

(** The loop of [main] that reads every collected file. *)
Fixpoint read_snippets (t : node) (clone_dir : path) (code_files : list path)
    (snippets : list (path * str)) : result (list (path * str)) :=
  match code_files with
  | [] => Ok snippets
  | f :: rest =>
      match read_file_safe t f with
      | Raise e => Raise e
      | Ok content =>
          match relative_to f clone_dir with
          | Raise e => Raise e
          | Ok rel => read_snippets t clone_dir rest (snippets ++ [(rel, content)])
          end
      end
  end.

(** The body of the [try] statement of [main]; the early [return] of the
    empty case is the end of its branch. *)
Definition main_try (E : env) (repo_url api_key : str) (output_file : path) : M unit :=
  clone_repo E repo_url clone_dir ;;;
  t <- get_fs ;;
  code_files <- lift (collect_code_files t clone_dir) ;;
  match code_files with
  | [] => print no_files_line
  | _ :: _ =>
      print (py "Found " ++ py (pretty (length code_files)) ++
             py " code files. Reading content...") ;;;
      t <- get_fs ;;
      snippets <- lift (read_snippets t clone_dir code_files []) ;;
      let prompt := build_prompt snippets repo_url in
      review <- get_code_review E prompt api_key ;;
      write_text output_file review ;;;
      print (saved_line E output_file)
  end.

Definition main_finally : M unit :=
  t <- get_fs ;;
  if path_exists t clone_dir then rmtree clone_dir else ret ().

(** [main], after its arguments are parsed. *)
Definition main (E : env) (repo_url api_key : str) (output_file : path) : M unit :=
  try_finally (main_try E repo_url api_key output_file) main_finally.

(** ** Specification-side notions *)

(** Length of the preamble together with the blocks of indices [0..k]. *)
Definition cumulative (code_snippets : list (path * str)) (repo_url : str)
    (k : nat) : Z :=
  len (intro repo_url) + len (join (block <$> take (S k) code_snippets)).

(** The test a path passes in the loop of [collect_code_files], with the
    relative path taken as what follows [root]. *)
Definition keeps (t : node) (root file_path : path) : bool :=
  is_file t file_path
  && bool_decide (lower (suffix file_path) ∈ SUPPORTED_EXTENSIONS)
  && negb (any_excluded (drop (length root) file_path)).

(** The paths the loop of [collect_code_files] runs over, and the sorted list
    of those that pass its test. *)
Definition candidates (t : node) (root : path) : list path :=
  match fs_lookup root t with Some n => rglob root n | None => [] end.

Definition collected (t : node) (root : path) : list path :=
  sorted (filter (λ p, keeps t root p) (candidates t root)).

(** The scratch path is absent, or a directory. *)
Definition scratch_absent_or_dir (t : node) : Prop :=
  fs_lookup clone_dir t = None ∨ ∃ es, fs_lookup clone_dir t = Some (Dir es).

(** A path that is neither the working directory itself nor the scratch
    path, nor below the scratch path. *)
Definition outside_scratch (p : path) : Prop :=
  match p with
  | [] => False
  | x :: _ => x ≠ py "temp_repo_clone"
  end.

(** No [write_text] among the events. *)
Definition no_write (evs : list event) : Prop := ∀ p data, EvWriteText p data ∉ evs.

(** No [requests.post] among the events. *)
Definition no_post (evs : list event) : Prop := ∀ rq, EvPost rq ∉ evs.

(** The [try] body of [main] up to and including [get_code_review], that is,
    everything before the write: [None] stands for the early [return] of the
    empty case, [Some review] for the review about to be written. *)
Definition main_before_write (E : env) (repo_url api_key : str) : M (option json) :=
  clone_repo E repo_url clone_dir ;;;
  t <- get_fs ;;
  code_files <- lift (collect_code_files t clone_dir) ;;
  match code_files with
  | [] => print no_files_line ;;; ret None
  | _ :: _ =>
      print (py "Found " ++ py (pretty (length code_files)) ++
             py " code files. Reading content...") ;;;
      t <- get_fs ;;
      snippets <- lift (read_snippets t clone_dir code_files []) ;;
      let prompt := build_prompt snippets repo_url in
      review <- get_code_review E prompt api_key ;;
      ret (Some review)
  end.

(** The rest of the [try] body: the write and the closing message. *)
Definition main_write (E : env) (output_file : path) (r : option json) : M unit :=
  match r with
  | None => ret ()
  | Some review =>
      write_text output_file review ;;;
      print (saved_line E output_file)
  end.

(** ** Sample data *)

(** A text of exactly [MAX_TOTAL_CHARS] characters. *)
Definition long_text : str := replicate (Z.to_nat MAX_TOTAL_CHARS) 97%N.


(** Two short files, as the reading loop of [main] hands them over. *)
Definition small_snippets : list (path * str) :=
  [([py "README.md"], py "# demo"); ([py "app.py"], py "x = 1")].

(** One file of 50000 times the letter e with acute accent (U+00E9): 50000
    characters, and twice as many bytes in UTF-8. *)
Definition accented_snippets : list (path * str) :=
  [([py "LISEZMOI.md"], replicate (Z.to_nat 50000) 233%N)].

Definition undecodable : exn :=
  Exc UnicodeDecodeError
    (py "'utf-8' codec can't decode byte 0xff in position 0: invalid start byte").

(** A cloned repository: one file per case of the collector. *)
Definition sample_repo : list (str * node) :=
  [(py "src", Dir [(py "Main.JS", File (Raise undecodable));
                   (py "notes.txt", File (Ok (py "todo")))]);
   (py "app.py", File (Ok (py "x = 1")));
   (py "node_modules", Dir [(py "dep.js", File (Ok (py "module.exports = 1")))]);
   (py "README.md", File (Ok (py "# demo")))].

(** A working directory that holds the clone and one unrelated file. *)
Definition sample_fs : node :=
  Dir [(py "temp_repo_clone", Dir sample_repo); (py "notes", File (Ok (py "keep me")))].

(** The same working directory, with the entries of the clone enumerated in
    the opposite order. *)
Definition sample_fs_reordered : node :=
  Dir [(py "temp_repo_clone", Dir (reverse sample_repo));
       (py "notes", File (Ok (py "keep me")))].

(** What the collector returns for [sample_fs]. *)
Definition sample_files : list path :=
  [clone_dir ++ [py "README.md"]; clone_dir ++ [py "app.py"];
   clone_dir ++ [py "src"; py "Main.JS"]].

(** A clone with a secrets file, a build script without extension and one
    source file. *)
Definition dotfile_repo : list (str * node) :=
  [(py ".env", File (Ok (py "API_KEY=secret")));
   (py "Makefile", File (Ok (py "all:")));
   (py "main.go", File (Ok (py "package main")))].

Definition dotfile_fs : node := Dir [(py "temp_repo_clone", Dir dotfile_repo)].



(** A chat-completion body whose first choice carries [content]. *)
Definition completion (content : json) : json :=
  JObj [(py "id", JStr (py "gen-1"));
        (py "choices",
         JArr [JObj [(py "index", JInt 0);
                     (py "message",
                      JObj [(py "role", JStr (py "assistant")); (py "content", content)])]])].

Definition response_ok : response :=
  Response 200 (py "{ ...the body as sent... }") (Ok (completion (JStr (py "X")))).

Definition response_500 : response :=
  Response 500 (py "Internal Server Error")
    (Raise (Exc JSONDecodeError (py "Expecting value: line 1 column 1 (char 0)"))).

(** Status 200 with a body that has no [choices]. *)
Definition response_200_empty : response := Response 200 (py "{}") (Ok (JObj [])).

(** Status 200 with [null] as the content of the first choice. *)
Definition response_null_content : response :=
  Response 200 (py "{ ...the body as sent... }") (Ok (completion JNull)).

(** Status 200 with an empty list of choices. *)
Definition response_no_choice : response :=
  Response 200 (py "{ ...the body as sent... }") (Ok (JObj [(py "choices", JArr [])])).

(** Status 200 with a lone surrogate in the content. *)
Definition response_surrogate : response :=
  Response 200 (py "{ ...the body as sent... }")
    (Ok (completion (JStr [79%N; 75%N; 55296%N]))).

Definition sample_resolve (p : path) : str := py "/work/" ++ path_str p.

(** The clone succeeds and the endpoint answers. *)
Definition env_ok : env :=
  Env (λ _ _, (0, Some sample_repo)) (λ _, Ok response_ok) sample_resolve.

(** [git clone] exits with status 128 and leaves nothing behind. *)
Definition env_clone_fails : env :=
  Env (λ _ _, (128, None)) (λ _, Ok response_ok) sample_resolve.

(** [git clone] is killed by signal 9. *)
Definition env_clone_killed : env :=
  Env (λ _ _, (-9, None)) (λ _, Ok response_ok) sample_resolve.

(** The clone succeeds, but holds no supported file. *)
Definition env_no_files : env :=
  Env (λ _ _, (0, Some [(py "notes.txt", File (Ok (py "todo")));
                        (py "LICENSE", File (Ok (py "MIT")))]))
      (λ _, Ok response_ok) sample_resolve.

Definition env_500 : env :=
  Env (λ _ _, (0, Some sample_repo)) (λ _, Ok response_500) sample_resolve.

Definition env_200_empty : env :=
  Env (λ _ _, (0, Some sample_repo)) (λ _, Ok response_200_empty) sample_resolve.

Definition env_null_content : env :=
  Env (λ _ _, (0, Some sample_repo)) (λ _, Ok response_null_content) sample_resolve.

Definition env_no_choice : env :=
  Env (λ _ _, (0, None)) (λ _, Ok response_no_choice) sample_resolve.

Definition env_surrogate : env :=
  Env (λ _ _, (0, Some sample_repo)) (λ _, Ok response_surrogate) sample_resolve.

(** A working directory with a stale clone of an earlier run. *)
Definition world_stale : world := World sample_fs [].

(** A working directory in which [temp_repo_clone] is a regular file. *)
Definition world_stale_file : world :=
  World (Dir [(py "temp_repo_clone", File (Ok (py "not a directory")))]) [].


(** * Properties *)

(** ** Strings and lengths *)

Lemma len_nonneg (s : str) : 0 ≤ len s.
Proof. unfold len. lia. Qed.

Lemma len_app (a b : str) : len (a ++ b) = len a + len b.
Proof. unfold len. rewrite length_app. lia. Qed.

Lemma join_app (l1 l2 : list str) : join (l1 ++ l2) = join l1 ++ join l2.
Proof.
  induction l1 as [|s l1 IH]; cbn [join app]; [done|]. by rewrite IH, app_assoc.
Qed.

Lemma len_join_cons (s : str) (l : list str) :
  len (join (s :: l)) = len s + len (join l).
Proof. cbn [join]. apply len_app. Qed.

(** ** The packing loop *)

Section packing.
Implicit Types (snips : list (path * str)) (acc : list str) (total : Z).

(** The accumulator is only ever extended. *)
Lemma pack_acc snips acc total :
  pack snips acc total = acc ++ pack snips [] total.
Proof.
  revert acc total. induction snips as [|sn rest IH]; intros acc total; cbn [pack].
  - by rewrite app_nil_r.
  - destruct (total + len (block sn) >? MAX_TOTAL_CHARS).
    + by rewrite app_nil_r.
    + rewrite (IH (acc ++ _)), (IH ([] ++ _)). by rewrite <- app_assoc.
Qed.

Lemma pack_stop sn rest total :
  MAX_TOTAL_CHARS < total + len (block sn) → pack (sn :: rest) [] total = [].
Proof.
  intros H. cbn [pack].
  destruct (Z.gtb_spec (total + len (block sn)) MAX_TOTAL_CHARS); [done | lia].
Qed.

Lemma pack_go sn rest total :
  total + len (block sn) ≤ MAX_TOTAL_CHARS →
  pack (sn :: rest) [] total = block sn :: pack rest [] (total + len (block sn)).
Proof.
  intros H. cbn [pack].
  destruct (Z.gtb_spec (total + len (block sn)) MAX_TOTAL_CHARS); [lia|].
  by rewrite pack_acc.
Qed.

(** The loop returns the blocks of a prefix of its input. *)
Lemma pack_prefix snips total :
  ∃ n, (n ≤ length snips)%nat ∧ pack snips [] total = block <$> take n snips.
Proof.
  revert total. induction snips as [|sn rest IH]; intros total.
  - exists 0%nat. done.
  - destruct (Z.le_gt_cases (total + len (block sn)) MAX_TOTAL_CHARS) as [Hfit|Hover].
    + destruct (IH (total + len (block sn))) as (n & Hn & Heq).
      exists (S n). split; [simpl; lia|]. by rewrite pack_go, Heq.
    + exists 0%nat. split; [lia|]. by rewrite pack_stop.
Qed.

(** What has been packed, counted from [total], stays within the budget
    unless [total] was over it from the start. *)
Lemma pack_bound snips total :
  total + len (join (pack snips [] total)) ≤ Z.max MAX_TOTAL_CHARS total.
Proof.
  revert total. induction snips as [|sn rest IH]; intros total.
  - cbn [pack join]. change (len []) with 0. lia.
  - destruct (Z.le_gt_cases (total + len (block sn)) MAX_TOTAL_CHARS) as [Hfit|Hover].
    + rewrite pack_go by done. rewrite len_join_cons.
      specialize (IH (total + len (block sn))). lia.
    + rewrite pack_stop by done. change (len (join [])) with 0. lia.
Qed.

Lemma len_blocks_take_S sn rest (j : nat) :
  len (join (block <$> take (S j) (sn :: rest)))
    = len (block sn) + len (join (block <$> take j rest)).
Proof. change (take (S j) (sn :: rest)) with (sn :: take j rest). apply len_join_cons. Qed.

Lemma len_blocks_take_0 rest : len (join (block <$> take 0 rest)) = 0.
Proof. by rewrite take_0. Qed.


(** When no running total is over the budget, every block is kept. *)
Lemma pack_all_fit snips total :
  (∀ j, (j < length snips)%nat →
        total + len (join (block <$> take (S j) snips)) ≤ MAX_TOTAL_CHARS) →
  pack snips [] total = block <$> snips.
Proof.
  revert total. induction snips as [|sn rest IH]; intros total Hfit; [done|].
  assert (Hsn : total + len (block sn) ≤ MAX_TOTAL_CHARS).
  { specialize (Hfit 0%nat ltac:(simpl; lia)).
    rewrite len_blocks_take_S, len_blocks_take_0 in Hfit. lia. }
  rewrite pack_go by done. rewrite fmap_cons. f_equal. apply IH.
  intros j Hj. specialize (Hfit (S j) ltac:(simpl; lia)).
  rewrite len_blocks_take_S in Hfit. lia.
Qed.

(** The loop keeps the longest prefix whose running totals all fit. *)
Lemma pack_greedy snips total :
  ∃ n, (n ≤ length snips)%nat ∧
       pack snips [] total = block <$> take n snips ∧
       (∀ j, (j < n)%nat →
             total + len (join (block <$> take (S j) snips)) ≤ MAX_TOTAL_CHARS) ∧
       ((n < length snips)%nat →
        MAX_TOTAL_CHARS < total + len (join (block <$> take (S n) snips))).
Proof.
  revert total. induction snips as [|sn rest IH]; intros total.
  - exists 0%nat. split_and!; [done | done | intros j Hj; lia | simpl; lia].
  - destruct (Z.le_gt_cases (total + len (block sn)) MAX_TOTAL_CHARS) as [Hfit|Hover].
    + destruct (IH (total + len (block sn))) as (n & Hn & Heq & Hbelow & Hnext).
      exists (S n). split_and!.
      * simpl. lia.
      * by rewrite pack_go, Heq.
      * intros j Hj. rewrite len_blocks_take_S. destruct j as [|j].
        -- rewrite len_blocks_take_0. lia.
        -- specialize (Hbelow j ltac:(lia)). lia.
      * intros Hlt. rewrite len_blocks_take_S.
        specialize (Hnext ltac:(simpl in Hlt; lia)). lia.
    + exists 0%nat. split_and!.
      * lia.
      * by rewrite pack_stop.
      * intros j Hj. lia.
      * intros _. rewrite len_blocks_take_S, len_blocks_take_0. lia.
Qed.

Lemma pack_app snips (more : list (path * str)) total :
  ∃ l, pack (snips ++ more) [] total = pack snips [] total ++ l.
Proof.
  revert total. induction snips as [|sn rest IH]; intros total.
  - by exists (pack more [] total).
  - rewrite <- app_comm_cons.
    destruct (Z.le_gt_cases (total + len (block sn)) MAX_TOTAL_CHARS) as [Hfit|Hover].
    + destruct (IH (total + len (block sn))) as [l Hl].
      exists l. by rewrite !pack_go, Hl.
    + exists []. by rewrite !pack_stop.
Qed.
End packing.

(** Every block has at least one character. *)
Lemma block_len_pos (sn : path * str) : 0 < len (block sn).
Proof.
  destruct sn as [fp content]. unfold block. rewrite len_app.
  pose proof (len_nonneg (path_str fp ++ NL ++ NL ++ py "```" ++ lang_tag fp ++
    NL ++ content ++ NL ++ py "```" ++ NL ++ NL)).
  change (len (py "### ")) with 4. lia.
Qed.

(** A preamble over the budget is emitted whole, and alone. *)
Lemma build_prompt_long_intro (code_snippets : list (path * str)) (repo_url : str) :
  MAX_TOTAL_CHARS < len (intro repo_url) →
  build_prompt code_snippets repo_url = intro repo_url.
Proof.
  intros H. unfold build_prompt. destruct code_snippets as [|sn rest].
  - cbn [pack join]. apply app_nil_r.
  - rewrite pack_stop; [apply app_nil_r|].
    pose proof (block_len_pos sn). lia.
Qed.

(** C1 (amended): the prompt is never longer than the larger of the budget
    [MAX_TOTAL_CHARS] and the preamble; so it is within the budget whenever
    the preamble is, and no file block is ever added beyond the budget. *)
Theorem build_prompt_budget (code_snippets : list (path * str)) (repo_url : str) :
  len (build_prompt code_snippets repo_url)
    ≤ Z.max MAX_TOTAL_CHARS (len (intro repo_url)).
Proof.
  unfold build_prompt. rewrite len_app. apply pack_bound.
Qed.


(** C9: the prompt is the whole preamble followed by the blocks of a prefix
    of the input; the budget check never shortens or drops the preamble. *)
Theorem build_prompt_intro_then_prefix
    (code_snippets : list (path * str)) (repo_url : str) :
  ∃ n, (n ≤ length code_snippets)%nat ∧
       build_prompt code_snippets repo_url
         = intro repo_url ++ join (block <$> take n code_snippets).
Proof.
  unfold build_prompt.
  destruct (pack_prefix code_snippets (len (intro repo_url))) as (n & Hn & Heq).
  exists n. by rewrite Heq.
Qed.

(** X1: the prompt holds the longest prefix of the input whose running totals
    (preamble and blocks) all fit: every included index fits, and the first
    index left out, if any, is over the budget. *)
Theorem build_prompt_greedy (code_snippets : list (path * str)) (repo_url : str) :
  ∃ n, (n ≤ length code_snippets)%nat ∧
       build_prompt code_snippets repo_url
         = intro repo_url ++ join (block <$> take n code_snippets) ∧
       (∀ j, (j < n)%nat → cumulative code_snippets repo_url j ≤ MAX_TOTAL_CHARS) ∧
       ((n < length code_snippets)%nat →
        MAX_TOTAL_CHARS < cumulative code_snippets repo_url n).
Proof.
  destruct (pack_greedy code_snippets (len (intro repo_url)))
    as (n & Hn & Heq & Hbelow & Hnext).
  exists n. unfold build_prompt, cumulative. by rewrite Heq.
Qed.

(** X2: when every running total fits, every file is in the prompt, in input
    order. *)
Theorem build_prompt_whole_input (code_snippets : list (path * str)) (repo_url : str) :
  (∀ j, (j < length code_snippets)%nat →
        cumulative code_snippets repo_url j ≤ MAX_TOTAL_CHARS) →
  build_prompt code_snippets repo_url = intro repo_url ++ join (block <$> code_snippets).
Proof. intros H. unfold build_prompt. by rewrite pack_all_fit. Qed.

(** X3: the prompt is the bare preamble exactly when there is no file or the
    first file does not fit after the preamble. *)
Theorem build_prompt_bare_preamble_iff
    (code_snippets : list (path * str)) (repo_url : str) :
  build_prompt code_snippets repo_url = intro repo_url
  ↔ match code_snippets with
    | [] => True
    | first :: _ => MAX_TOTAL_CHARS < len (intro repo_url) + len (block first)
    end.
Proof.
  unfold build_prompt. destruct code_snippets as [|sn rest].
  - split; [done|]. intros _. cbn [pack join]. apply app_nil_r.
  - split.
    + intros Heq.
      destruct (Z.le_gt_cases (len (intro repo_url) + len (block sn)) MAX_TOTAL_CHARS)
        as [Hfit|Hover]; [|lia].
      rewrite pack_go in Heq by done. apply (f_equal len) in Heq.
      rewrite len_app, len_join_cons in Heq.
      pose proof (block_len_pos sn). pose proof (len_nonneg (join (pack rest []
        (len (intro repo_url) + len (block sn))))). lia.
    + intros Hover. rewrite pack_stop by done. apply app_nil_r.
Qed.

(** X4: files added at the end of the input never change what was included
    before them: the prompt of the longer input begins with the prompt of
    the shorter one. *)
Theorem build_prompt_append_stable
    (code_snippets more : list (path * str)) (repo_url : str) :
  ∃ rest, build_prompt (code_snippets ++ more) repo_url
            = build_prompt code_snippets repo_url ++ rest.
Proof.
  unfold build_prompt.
  destruct (pack_app code_snippets more (len (intro repo_url))) as [l ->].
  exists (join l). by rewrite join_app, app_assoc.
Qed.

(** ** Suffixes and language tags *)






Lemma supported_nonempty (s : str) : lower s ∈ SUPPORTED_EXTENSIONS → s ≠ [].
Proof.
  intros Hin ->.
  assert (H : bool_decide (lower [] ∈ SUPPORTED_EXTENSIONS) = false) by (vm_compute; done).
  exact (proj1 (bool_decide_eq_false _) H Hin).
Qed.

(** Without the character, the scan returns what it started with. *)
Lemma rfind_from_absent (c : N) (s : str) (i last : Z) :
  c ∉ s → rfind_from c s i last = last.
Proof.
  revert i last. induction s as [|a s IH]; intros i last Hno; [done|].
  cbn [rfind_from]. apply not_elem_of_cons in Hno as [Hne Hno]. rewrite IH by done.
  destruct (N.eqb_spec a c) as [->|_]; done.
Qed.

(** A name whose only dot, if any, is its first character has no suffix. *)
Lemma suffix_plain_name (p : path) (a : N) (s : str) :
  name p = a :: s → dot ∉ s → suffix p = [].
Proof.
  intros Hname Hno. unfold suffix, rfind. rewrite Hname. cbn [rfind_from].
  rewrite rfind_from_absent by done.
  by destruct (N.eqb a dot).
Qed.

(** ** The order on paths *)

Lemma str_compare_refl (s : str) : str_compare s s = Eq.
Proof. induction s as [|a s IH]; cbn [str_compare]; [done|]. by rewrite N.compare_refl. Qed.

Lemma str_compare_eq (s1 s2 : str) : str_compare s1 s2 = Eq → s1 = s2.
Proof.
  revert s2. induction s1 as [|a s1 IH]; intros [|b s2]; cbn [str_compare]; try done.
  destruct (N.compare a b) eqn:E; try done.
  apply N.compare_eq in E as ->. intros ?. f_equal. by apply IH.
Qed.

Lemma str_compare_antisym (s1 s2 : str) : str_compare s2 s1 = CompOpp (str_compare s1 s2).
Proof.
  revert s2. induction s1 as [|a s1 IH]; intros [|b s2]; cbn [str_compare]; try done.
  rewrite (N.compare_antisym a b).
  destruct (N.compare a b); simpl; [apply IH | done | done].
Qed.

Lemma str_compare_lt_trans (s1 s2 s3 : str) :
  str_compare s1 s2 = Lt → str_compare s2 s3 = Lt → str_compare s1 s3 = Lt.
Proof.
  revert s2 s3.
  induction s1 as [|a s1 IH]; intros [|b s2] [|c s3]; cbn [str_compare]; try done.
  destruct (N.compare a b) eqn:Eab; try done.
  - apply N.compare_eq in Eab as ->.
    destruct (N.compare b c); [apply IH | done | done].
  - intros _. destruct (N.compare b c) eqn:Ebc; try done.
    + apply N.compare_eq in Ebc as ->. by rewrite Eab.
    + apply N.compare_lt_iff in Eab. apply N.compare_lt_iff in Ebc.
      assert (Hac : (a < c)%N) by (by apply (N.lt_trans a b c)).
      apply N.compare_lt_iff in Hac. by rewrite Hac.
Qed.

Lemma path_compare_refl (p : path) : path_compare p p = Eq.
Proof. induction p as [|x p IH]; cbn [path_compare]; [done|]. by rewrite str_compare_refl. Qed.

Lemma path_compare_eq (p q : path) : path_compare p q = Eq → p = q.
Proof.
  revert q. induction p as [|x p IH]; intros [|y q]; cbn [path_compare]; try done.
  destruct (str_compare x y) eqn:E; try done.
  apply str_compare_eq in E as ->. intros ?. f_equal. by apply IH.
Qed.

Lemma path_compare_antisym (p q : path) : path_compare q p = CompOpp (path_compare p q).
Proof.
  revert q. induction p as [|x p IH]; intros [|y q]; cbn [path_compare]; try done.
  rewrite (str_compare_antisym x y).
  destruct (str_compare x y); simpl; [apply IH | done | done].
Qed.

Lemma path_lt_trans (p q r : path) : path_lt p q → path_lt q r → path_lt p r.
Proof.
  unfold path_lt. revert q r.
  induction p as [|x p IH]; intros [|y q] [|z r]; cbn [path_compare]; try done.
  destruct (str_compare x y) eqn:Exy; try done.
  - apply str_compare_eq in Exy as ->.
    destruct (str_compare y z); [apply IH | done | done].
  - intros _. destruct (str_compare y z) eqn:Eyz; try done.
    + apply str_compare_eq in Eyz as ->. by rewrite Exy.
    + by rewrite (str_compare_lt_trans x y z).
Qed.

Lemma path_lt_irrefl (p : path) : ¬ path_lt p p.
Proof. unfold path_lt. by rewrite path_compare_refl. Qed.

Lemma path_lt_asym (p q : path) : path_lt p q → ¬ path_lt q p.
Proof. intros H1 H2. apply (path_lt_irrefl p). by apply (path_lt_trans p q p). Qed.

(** Two paths are equal, or one is before the other. *)
Lemma path_lt_trichotomy (p q : path) : path_lt p q ∨ p = q ∨ path_lt q p.
Proof.
  unfold path_lt. rewrite (path_compare_antisym p q).
  destruct (path_compare p q) eqn:E; simpl; auto.
  right; left. by apply path_compare_eq.
Qed.

Lemma not_after_iff (p q : path) : not_after p q ↔ path_lt p q ∨ p = q.
Proof.
  unfold not_after. split.
  - intros H. destruct (path_lt_trichotomy p q) as [?|[?|?]]; tauto.
  - intros [H| ->]; [by apply path_lt_asym | apply path_lt_irrefl].
Qed.

#[local] Instance not_after_total : Total not_after.
Proof.
  intros p q. rewrite !not_after_iff.
  destruct (path_lt_trichotomy p q) as [?|[?|?]]; auto.
Qed.

#[local] Instance not_after_trans : Transitive not_after.
Proof.
  intros p q r. rewrite !not_after_iff.
  intros [H1| ->] [H2| ->]; auto. left. by apply (path_lt_trans p q r).
Qed.

(** [sorted] returns its input rearranged in non-decreasing order. *)
Lemma sorted_Permutation (l : list path) : sorted l ≡ₚ l.
Proof. apply merge_sort_Permutation. Qed.

Lemma sorted_StronglySorted (l : list path) : StronglySorted not_after (sorted l).
Proof. apply StronglySorted_merge_sort; apply _. Qed.

(** Without repetitions, non-decreasing is increasing. *)
Lemma StronglySorted_strict (l : list path) :
  NoDup l → StronglySorted not_after l → StronglySorted path_lt l.
Proof.
  intros Hnd Hs. induction Hs as [|p l Hs IH Hall]; [constructor|].
  apply NoDup_cons in Hnd as [Hp Hnd]. constructor; [by apply IH|].
  rewrite Forall_forall in Hall |- *. intros q Hq.
  destruct (proj1 (not_after_iff p q) (Hall q Hq)) as [?| ->]; done.
Qed.

Lemma StronglySorted_lt_NoDup (l : list path) : StronglySorted path_lt l → NoDup l.
Proof.
  induction 1 as [|p l Hs IH Hall]; [constructor|].
  constructor; [|done]. intros Hin.
  rewrite Forall_forall in Hall. by apply (path_lt_irrefl p), Hall.
Qed.

(** An increasing list is determined by its elements. *)
Lemma StronglySorted_lt_unique (l1 l2 : list path) :
  StronglySorted path_lt l1 → StronglySorted path_lt l2 →
  (∀ p, p ∈ l1 ↔ p ∈ l2) → l1 = l2.
Proof.
  intros H1 H2 Hmem.
  apply (StronglySorted_unique_strong path_lt); [| done | done |].
  - intros p q _ _ Hpq Hqp. by destruct (path_lt_asym p q).
  - apply NoDup_Permutation; auto using StronglySorted_lt_NoDup.
Qed.

(** ** Directory trees *)

(** Induction on a tree, with the hypothesis for every entry of a directory. *)
Lemma node_induction (P : node → Prop) :
  (∀ read, P (File read)) →
  (∀ es, Forall (λ e, P e.2) es → P (Dir es)) →
  ∀ n, P n.
Proof.
  intros Hfile Hdir. fix IH 1. intros [read|es].
  - apply Hfile.
  - apply Hdir. induction es as [|e es IHes]; constructor; [apply IH | apply IHes].
Qed.

Lemma rglob_Dir (root : path) (es : list (str * node)) :
  rglob root (Dir es)
    = ((λ e, root ++ [e.1]) <$> es) ++ (es ≫= λ e, rglob (root ++ [e.1]) e.2).
Proof. reflexivity. Qed.

Lemma wf_Dir (es : list (str * node)) :
  wf_node (Dir es) ↔ NoDup (es.*1) ∧ Forall (λ e, wf_node e.2) es.
Proof.
  cbn [wf_node]. apply and_iff_compat_l.
  induction es as [|e es IH]; [by rewrite Forall_nil|].
  by rewrite Forall_cons, <- IH.
Qed.

Lemma entry_lookup_elem (x : str) (es : list (str * node)) (c : node) :
  entry_lookup x es = Some c → (x, c) ∈ es.
Proof.
  induction es as [|[y d] es IH]; cbn [entry_lookup fst snd]; [done|].
  destruct (decide (y = x)) as [->|_].
  - intros [= ->]. left.
  - intros H. right. by apply IH.
Qed.

Lemma NoDup_fst_inj {A B} (l : list (A * B)) (e1 e2 : A * B) :
  NoDup (l.*1) → e1 ∈ l → e2 ∈ l → e1.1 = e2.1 → e1 = e2.
Proof.
  induction l as [|e l IH]; intros Hnd H1 H2 Heq; [by inv H1|].
  rewrite fmap_cons in Hnd. apply NoDup_cons in Hnd as [Hnotin Hnd].
  inv H1; inv H2; try done.
  - destruct Hnotin. rewrite Heq. by apply list_elem_of_fmap_2.
  - destruct Hnotin. rewrite <- Heq. by apply list_elem_of_fmap_2.
  - by apply IH.
Qed.

Lemma fs_lookup_app (p q : path) (t : node) :
  fs_lookup (p ++ q) t = fs_lookup p t ≫= fs_lookup q.
Proof.
  revert t. induction p as [|x p IH]; intros t; [done|].
  rewrite <- app_comm_cons. cbn [fs_lookup].
  destruct t as [r|es]; [done|]. destruct (entry_lookup x es); [apply IH | done].
Qed.

Lemma wf_lookup (p : path) (t n : node) :
  wf_node t → fs_lookup p t = Some n → wf_node n.
Proof.
  revert t. induction p as [|x p IH]; intros t Hwf; cbn [fs_lookup].
  - by intros [= <-].
  - destruct t as [r|es]; [done|].
    destruct (entry_lookup x es) as [c|] eqn:E; [|done].
    apply IH. apply wf_Dir in Hwf as [_ Hall].
    rewrite Forall_forall in Hall. by apply (Hall (x, c)), entry_lookup_elem.
Qed.

(** Every path [rglob] yields lies strictly below the root. *)
Lemma rglob_below (n : node) (root p : path) :
  p ∈ rglob root n → ∃ rel, p = root ++ rel ∧ rel ≠ [].
Proof.
  revert root p. induction n as [r|es IH] using node_induction; intros root p.
  - by intros ?%elem_of_nil.
  - rewrite rglob_Dir, elem_of_app, list_elem_of_fmap, list_elem_of_bind.
    intros [(e & -> & _)|(e & Hp & He)].
    + by exists [e.1].
    + rewrite Forall_forall in IH.
      destruct (IH e He _ _ Hp) as (rel & -> & _).
      exists (e.1 :: rel). by rewrite <- app_assoc.
Qed.

(** What can be looked up below the root is among the paths [rglob] yields. *)
Lemma lookup_in_rglob (rel : path) (n m : node) (root : path) :
  rel ≠ [] → fs_lookup rel n = Some m → root ++ rel ∈ rglob root n.
Proof.
  revert n root. induction rel as [|x rel IH]; intros n root Hne; [done|].
  cbn [fs_lookup]. destruct n as [r|es]; [done|].
  destruct (entry_lookup x es) as [c|] eqn:E; [|done].
  apply entry_lookup_elem in E. intros Hlook.
  rewrite rglob_Dir, elem_of_app, list_elem_of_fmap, list_elem_of_bind.
  destruct rel as [|y rel].
  - left. by exists (x, c).
  - right. exists (x, c). split; [|done].
    replace (root ++ x :: y :: rel) with ((root ++ [x]) ++ y :: rel)
      by (by rewrite <- app_assoc).
    by apply IH.
Qed.

(** On a tree with unique sibling names, [rglob] yields no path twice. *)
Lemma rglob_NoDup (n : node) (root : path) : wf_node n → NoDup (rglob root n).
Proof.
  revert root. induction n as [r|es IH] using node_induction; intros root Hwf.
  - constructor.
  - apply wf_Dir in Hwf as [Hnames Hall].
    rewrite Forall_forall in IH, Hall.
    rewrite rglob_Dir. apply NoDup_app. split_and!.
    + apply (NoDup_fmap_2_strong _); [|by apply NoDup_fmap_1 in Hnames].
      intros e1 e2 H1 H2 Heq. apply (NoDup_fst_inj es); [done..|].
      apply app_inv_head in Heq. by injection Heq.
    + intros p (e & -> & _)%list_elem_of_fmap (e' & Hp & _)%list_elem_of_bind.
      apply rglob_below in Hp as (rel & Heq & Hne).
      rewrite <- app_assoc in Heq. apply app_inv_head in Heq.
      injection Heq as _ <-. done.
    + apply NoDup_bind; [| |by apply NoDup_fmap_1 in Hnames].
      * intros e1 e2 p H1 H2 Hp1 Hp2. apply (NoDup_fst_inj es); [done..|].
        apply rglob_below in Hp1 as (rel1 & -> & _).
        apply rglob_below in Hp2 as (rel2 & Heq & _).
        rewrite <- !app_assoc in Heq. apply app_inv_head in Heq.
        by injection Heq.
      * intros e He. apply IH; [done|]. by apply Hall.
Qed.

(** Looking a name up does not depend on the order of a listing without
    repeated names. *)
Lemma entry_lookup_Permutation (x : str) (es es' : list (str * node)) :
  NoDup (es.*1) → es ≡ₚ es' → entry_lookup x es = entry_lookup x es'.
Proof.
  intros Hnd Hperm. induction Hperm as [|e es es' Hperm IH|e1 e2 es|es1 es2 es3 H12 IH12 H23 IH23].
  - done.
  - rewrite fmap_cons in Hnd. apply NoDup_cons in Hnd as [_ Hnd].
    cbn [entry_lookup]. by rewrite IH.
  - rewrite !fmap_cons in Hnd. apply NoDup_cons in Hnd as [Hne _].
    cbn [entry_lookup].
    destruct (decide (e1.1 = x)) as [H1|H1], (decide (e2.1 = x)) as [H2|H2]; try done.
    destruct Hne. apply elem_of_cons. left. congruence.
  - rewrite IH12 by done. apply IH23. by rewrite <- H12.
Qed.

(** ** collect_code_files *)

Lemma strip_prefix_app (root rel : path) : strip_prefix root (root ++ rel) = Some rel.
Proof.
  induction root as [|r root IH]; [done|].
  rewrite <- app_comm_cons. cbn [strip_prefix]. by rewrite decide_True.
Qed.

Lemma relative_to_app (root rel : path) : relative_to (root ++ rel) root = Ok rel.
Proof. unfold relative_to. by rewrite strip_prefix_app. Qed.

Lemma any_excluded_false (parts : list str) :
  any_excluded parts = false ↔ ∀ part, part ∈ parts → part ∉ EXCLUDE_DIRS.
Proof.
  unfold any_excluded. induction parts as [|x parts IH]; cbn [existsb].
  - split; [|reflexivity]. intros _ part Hin. destruct (proj1 (elem_of_nil _) Hin).
  - rewrite orb_false_iff, IH, bool_decide_eq_false. split.
    + intros [Hx Hrest] part [->|Hin]%elem_of_cons; auto.
    + intros H. split; [apply H; left | intros part Hin; apply H; by right].
Qed.

Lemma keeps_app (t : node) (root rel : path) :
  keeps t root (root ++ rel)
    = is_file t (root ++ rel)
      && bool_decide (lower (suffix (root ++ rel)) ∈ SUPPORTED_EXTENSIONS)
      && negb (any_excluded rel).
Proof. unfold keeps. by rewrite (drop_app_length root rel). Qed.

(** The loop appends, in order, the paths that pass the test. *)
Lemma collect_loop_filter (t : node) (root : path) (paths acc : list path) :
  Forall (λ p, ∃ rel, p = root ++ rel) paths →
  collect_loop t root paths acc = Ok (acc ++ filter (λ p, keeps t root p) paths).
Proof.
  intros Hall. revert acc. induction Hall as [|p paths [rel ->] _ IH]; intros acc.
  - by rewrite app_nil_r.
  - cbn [collect_loop]. rewrite relative_to_app, filter_cons.
    pose proof (keeps_app t root rel) as K.
    destruct (is_file t (root ++ rel)), (bool_decide _), (any_excluded rel);
      cbn [andb negb] in K |- *;
      try (rewrite decide_False by (rewrite K; intros []); apply IH).
    rewrite decide_True by (rewrite K; exact I). rewrite IH. by rewrite <- app_assoc.
Qed.

Lemma candidates_below (t : node) (root : path) :
  Forall (λ p, ∃ rel, p = root ++ rel) (candidates t root).
Proof.
  unfold candidates. destruct (fs_lookup root t) as [n|]; [|constructor].
  apply Forall_forall. intros p (rel & -> & _)%rglob_below. by exists rel.
Qed.

(** In the model of the file system, [collect_code_files] returns the sorted
    list of the paths that pass the test. *)
Lemma collect_code_files_eq (t : node) (root : path) :
  collect_code_files t root = Ok (collected t root).
Proof.
  unfold collect_code_files. fold (candidates t root).
  by rewrite collect_loop_filter by apply candidates_below.
Qed.

(** The paths that pass the test are the selected ones. *)
Lemma kept_selected (t : node) (root p : path) :
  p ∈ filter (λ p, keeps t root p) (candidates t root) ↔ selected t root p.
Proof.
  rewrite list_elem_of_filter. unfold selected, candidates. split.
  - intros [Hkeep Hin].
    destruct (fs_lookup root t) as [n|]; [|by apply elem_of_nil in Hin].
    apply rglob_below in Hin as (rel & -> & Hne).
    apply Is_true_true in Hkeep. rewrite keeps_app in Hkeep.
    apply andb_true_iff in Hkeep as [[Hfile Hsup]%andb_true_iff Hex].
    exists rel. split_and!; [done | done | done | by apply bool_decide_eq_true in Hsup |].
    apply any_excluded_false. by destruct (any_excluded rel).
  - intros (rel & -> & Hne & Hfile & Hsup & Hex). split.
    + apply Is_true_true. rewrite keeps_app.
      rewrite Hfile, (bool_decide_eq_true_2 _ Hsup).
      by rewrite (proj2 (any_excluded_false rel) Hex).
    + unfold is_file in Hfile. rewrite fs_lookup_app in Hfile.
      destruct (fs_lookup root t) as [n|]; [|discriminate Hfile].
      cbn [mbind option_bind] in Hfile.
      destruct (fs_lookup rel n) as [m|] eqn:E; [|discriminate Hfile].
      by apply (lookup_in_rglob rel n m).
Qed.

Lemma collected_selected (t : node) (root p : path) :
  p ∈ collected t root ↔ selected t root p.
Proof. unfold collected. rewrite sorted_Permutation. apply kept_selected. Qed.

Lemma collected_NoDup (t : node) (root : path) : wf_node t → NoDup (collected t root).
Proof.
  intros Hwf. unfold collected, candidates. rewrite sorted_Permutation. apply NoDup_filter.
  destruct (fs_lookup root t) as [n|] eqn:E; [|constructor].
  apply rglob_NoDup. by apply (wf_lookup root t).
Qed.

Lemma collected_increasing (t : node) (root : path) :
  wf_node t → StronglySorted path_lt (collected t root).
Proof.
  intros Hwf. apply StronglySorted_strict; [by apply collected_NoDup|].
  apply sorted_StronglySorted.
Qed.

(** Two trees with the same selected files give the same list: the order of
    enumeration does not show in the result. *)
Lemma collect_code_files_order_independent (t1 t2 : node) (root : path) :
  wf_node t1 → wf_node t2 →
  (∀ p, selected t1 root p ↔ selected t2 root p) →
  collect_code_files t1 root = collect_code_files t2 root.
Proof.
  intros H1 H2 Hsame. rewrite !collect_code_files_eq. f_equal.
  apply StronglySorted_lt_unique; [by apply collected_increasing..|].
  intros p. by rewrite !collected_selected.
Qed.



(** X6: when the root is missing or is a regular file, the result is the
    empty list, not an error. *)
Theorem collect_code_files_no_directory (t : node) (root : path) :
  (fs_lookup root t = None ∨ ∃ read, fs_lookup root t = Some (File read)) →
  collect_code_files t root = Ok [].
Proof.
  intros H. rewrite collect_code_files_eq. unfold collected, candidates.
  by destruct H as [->|[read ->]].
Qed.

(** X7: a file whose name has no dot after its first character (a dotfile
    such as [.env], or a name without extension such as [Makefile]) is never
    collected. *)
Theorem collect_code_files_skips_plain_names (t : node) (root p : path)
    (code_files : list path) (a : N) (s : str) :
  collect_code_files t root = Ok code_files →
  name p = a :: s →
  dot ∉ s →
  p ∉ code_files.
Proof.
  rewrite collect_code_files_eq. intros [= <-] Hname Hno Hin.
  apply collected_selected in Hin as (rel & -> & _ & _ & Hsup & _).
  apply supported_nonempty in Hsup. by rewrite (suffix_plain_name _ a s) in Hsup.
Qed.

(** X8: nothing at or below a component named in [EXCLUDE_DIRS] is collected:
    a path whose part relative to the root has such a component is not in the
    result. *)
Theorem collect_code_files_prunes (t : node) (root rel : path)
    (code_files : list path) (part : str) :
  collect_code_files t root = Ok code_files →
  part ∈ rel → part ∈ EXCLUDE_DIRS →
  (root ++ rel) ∉ code_files.
Proof.
  rewrite collect_code_files_eq. intros [= <-] Hpart Hex Hin.
  apply collected_selected in Hin as (rel' & Heq & _ & _ & _ & Hnone).
  apply app_inv_head in Heq as ->. by apply (Hnone part).
Qed.

(** X9: the result depends only on which paths are regular files, not on the
    order in which directories list their entries: two trees with unique
    sibling names and the same regular files give the same list. *)
Theorem collect_code_files_same_files (t1 t2 : node) (root : path) :
  wf_node t1 → wf_node t2 →
  (∀ p, is_file t1 p = is_file t2 p) →
  collect_code_files t1 root = collect_code_files t2 root.
Proof.
  intros H1 H2 Hsame. rewrite !collect_code_files_eq. f_equal.
  apply StronglySorted_lt_unique; [by apply collected_increasing..|].
  intros p. rewrite !collected_selected. unfold selected.
  by setoid_rewrite Hsame.
Qed.

(** ** read_file_safe *)

(** C6: [read_file_safe] always returns a string and never raises: the text
    of the file when the read succeeds, and otherwise the placeholder
    ["[ERROR reading file: ...]"] around the description of the error. *)
Theorem read_file_safe_total (t : node) (file_path : path) :
  (∃ s, read_file_safe t file_path = Ok s) ∧
  (∀ content, open_read t file_path = Ok content →
     read_file_safe t file_path = Ok content) ∧
  (∀ e, open_read t file_path = Raise e →
     read_file_safe t file_path = Ok (py "[ERROR reading file: " ++ exn_str e ++ py "]")).
Proof.
  unfold read_file_safe. destruct (open_read t file_path) as [content|e]; cbn [try_except].
  - split_and!; [by eexists | by intros ? [= ->] | done].
  - split_and!; [by eexists | done | by intros ? [= ->]].
Qed.

(** ** The reading loop of main *)

Lemma read_file_safe_returns (t : node) (f : path) : ∃ content, read_file_safe t f = Ok content.
Proof. unfold read_file_safe. destruct (open_read t f); by eexists. Qed.

Lemma read_snippets_acc (t : node) (root : path) (files : list path)
    (acc : list (path * str)) :
  Forall (λ f, ∃ rel, f = root ++ rel) files →
  ∃ snippets,
    read_snippets t root files acc = Ok (acc ++ snippets) ∧
    Forall2 (λ f sn, f = root ++ sn.1 ∧ read_file_safe t f = Ok sn.2) files snippets.
Proof.
  intros Hall. revert acc. induction Hall as [|f files [rel ->] _ IH]; intros acc.
  - exists []. split; [by rewrite app_nil_r | constructor].
  - cbn [read_snippets].
    destruct (read_file_safe_returns t (root ++ rel)) as [content Hread].
    rewrite Hread, relative_to_app.
    destruct (IH (acc ++ [(rel, content)])) as (snippets & Heq & Hf2).
    exists ((rel, content) :: snippets). split; [|by constructor].
    etrans; [exact Heq|]. by rewrite <- app_assoc.
Qed.

(** X10: the reading loop never aborts on what the collector returns: it
    gives one snippet per collected file, in the same order, each with the
    path relative to the root and with what [read_file_safe] returns for the
    file (its text or the error placeholder). *)
Theorem read_snippets_one_per_file (t : node) (root : path) (code_files : list path) :
  collect_code_files t root = Ok code_files →
  ∃ snippets,
    read_snippets t root code_files [] = Ok snippets ∧
    Forall2 (λ f sn, f = root ++ sn.1 ∧ read_file_safe t f = Ok sn.2) code_files snippets.
Proof.
  rewrite collect_code_files_eq. intros [= <-].
  apply (read_snippets_acc t root (collected t root) []).
  apply Forall_forall. intros p (rel & -> & _)%collected_selected. by exists rel.
Qed.

(** ** get_code_review *)

(** One run of [get_code_review]: two events, no change to the file system,
    and the outcome decided by the response. *)
Lemma get_code_review_run (E : env) (prompt api_key : str) (w : world) :
  get_code_review E prompt api_key w
    = (match requests_post E (review_request prompt api_key) with
       | Ok r => review_of_response r
       | Raise e => Raise e
       end,
       World (fs w)
         (log w ++ [EvPrint (py "Sending code to LLM for review...");
                    EvPost (review_request prompt api_key)])).
Proof.
  unfold get_code_review, bind, print, emit, lift. cbn [fs log].
  rewrite <- app_assoc. cbn [app].
  by destruct (requests_post E (review_request prompt api_key)).
Qed.

(** The value found at [choices[0].message.content]. *)
Lemma first_content_path (r : response) (members choice message : list (str * json))
    (rest : list json) (v : json) :
  json_of r = Ok (JObj members) →
  member_lookup (py "choices") members = Some (JArr (JObj choice :: rest)) →
  member_lookup (py "message") choice = Some (JObj message) →
  member_lookup (py "content") message = Some v →
  first_content r = Ok v.
Proof.
  intros Hj Hc Hm Hv. unfold first_content. rewrite Hj.
  cbn [subscript_key]. rewrite Hc. cbn [subscript_index lookup list_lookup].
  cbn [subscript_key]. rewrite Hm. cbn [subscript_key]. by rewrite Hv.
Qed.

(** C4 (amended): once [requests.post] has returned a response,
    [get_code_review] raises if the status is not 200, with the message
    ["OpenRouter API error: <status> - <body>"]; with status 200 it returns
    exactly the value at [choices[0].message.content] of the decoded body when
    there is one, and otherwise raises the decoding or lookup error. So it
    raises exactly when the status is not 200 or the body has no such value. *)
Theorem get_code_review_outcome (E : env) (prompt api_key : str) (w : world)
    (r : response) :
  requests_post E (review_request prompt api_key) = Ok r →
  (status_code r ≠ 200 →
     (get_code_review E prompt api_key w).1
       = Raise (Exc Exception
           (py "OpenRouter API error: " ++ py (pretty (status_code r)) ++ py " - " ++ text r))) ∧
  (∀ members rest choice message v,
     status_code r = 200 →
     json_of r = Ok (JObj members) →
     member_lookup (py "choices") members = Some (JArr (JObj choice :: rest)) →
     member_lookup (py "message") choice = Some (JObj message) →
     member_lookup (py "content") message = Some v →
     (get_code_review E prompt api_key w).1 = Ok v) ∧
  (is_ok (get_code_review E prompt api_key w).1 = false
     ↔ status_code r ≠ 200 ∨ is_ok (first_content r) = false).
Proof.
  intros Hpost. rewrite get_code_review_run, Hpost. cbn [fst].
  unfold review_of_response. split_and!.
  - intros Hne. by rewrite decide_True.
  - intros members rest choice message v H200 Hj Hc Hm Hv.
    rewrite decide_False by (by intros ?).
    by apply (first_content_path r members choice message rest).
  - destruct (decide (status_code r ≠ 200)) as [Hne|Heq].
    + split; [by left | done].
    + split; [by right | intros [?|?]; done].
Qed.

(** ** The file system under removal and creation *)

Section entries.
Context (x : str).

Lemma entry_lookup_filter_ne (y : str) (es : list (str * node)) :
  y ≠ x → entry_lookup y (filter (λ e, e.1 ≠ x) es) = entry_lookup y es.
Proof.
  intros Hne. induction es as [|e es IH]; [done|].
  rewrite filter_cons. cbn [entry_lookup].
  destruct (decide (e.1 ≠ x)) as [He|He]; cbn [entry_lookup].
  - by rewrite IH.
  - rewrite IH. apply dec_stable in He. by rewrite decide_False by congruence.
Qed.

Lemma entry_lookup_filter_same (es : list (str * node)) :
  entry_lookup x (filter (λ e, e.1 ≠ x) es) = None.
Proof.
  induction es as [|e es IH]; [done|].
  rewrite filter_cons. destruct (decide (e.1 ≠ x)) as [He|He]; [|done].
  cbn [entry_lookup]. by rewrite decide_False.
Qed.

Lemma entry_lookup_alter (f : node → node) (y : str) (es : list (str * node)) :
  entry_lookup y ((λ e, if decide (e.1 = x) then (e.1, f e.2) else e) <$> es)
    = if decide (y = x) then f <$> entry_lookup y es else entry_lookup y es.
Proof.
  induction es as [|e es IH]; [by destruct (decide (y = x))|].
  rewrite fmap_cons. cbn [entry_lookup]. rewrite IH.
  destruct (decide (e.1 = x)) as [He|He]; cbn [fst snd];
    destruct (decide (e.1 = y)) as [Hy|Hy]; destruct (decide (y = x)); try done;
    congruence.
Qed.

Lemma entry_lookup_snoc (n : node) (y : str) (es : list (str * node)) :
  entry_lookup y (es ++ [(x, n)])
    = match entry_lookup y es with
      | Some c => Some c
      | None => if decide (x = y) then Some n else None
      end.
Proof.
  induction es as [|e es IH]; [done|].
  rewrite <- app_comm_cons. cbn [entry_lookup]. by destruct (decide (e.1 = y)).
Qed.
End entries.

(** Removing the scratch directory leaves every other top-level name, and
    what is below it, as it was. *)
Lemma fs_lookup_remove_outside (x y : str) (q : path) (t : node) :
  y ≠ x → fs_lookup (y :: q) (fs_remove [x] t) = fs_lookup (y :: q) t.
Proof.
  intros Hne. destruct t as [r|es]; [done|].
  cbn [fs_remove fs_lookup]. by rewrite entry_lookup_filter_ne.
Qed.

Lemma fs_lookup_remove_same (x : str) (t : node) :
  fs_lookup [x] (fs_remove [x] t) = None.
Proof.
  destruct t as [r|es]; [done|].
  cbn [fs_remove fs_lookup]. by rewrite entry_lookup_filter_same.
Qed.

Lemma fs_put_cons (x : str) (p : path) (new : node) (es : list (str * node)) :
  fs_put (x :: p) new (Dir es)
    = match entry_lookup x es with
      | Some _ =>
          Dir ((λ e, if decide (e.1 = x) then (e.1, fs_put p new e.2) else e) <$> es)
      | None => Dir (es ++ [(x, fs_put p new (Dir []))])
      end.
Proof. reflexivity. Qed.

Lemma fs_lookup_top (x : str) (es : list (str * node)) :
  fs_lookup [x] (Dir es) = entry_lookup x es.
Proof. cbn [fs_lookup]. by destruct (entry_lookup x es). Qed.

(** Creating a node at or below [x] leaves every other top-level name, and
    what is below it, as it was. *)
Lemma fs_lookup_put_outside (x y : str) (p q : path) (new t : node) :
  y ≠ x → fs_lookup (y :: q) (fs_put (x :: p) new t) = fs_lookup (y :: q) t.
Proof.
  intros Hne. destruct t as [r|es]; [done|].
  rewrite fs_put_cons. destruct (entry_lookup x es); cbn [fs_lookup].
  - rewrite (entry_lookup_alter x (fs_put p new)). by rewrite decide_False.
  - rewrite entry_lookup_snoc. destruct (entry_lookup y es); [done|].
    by rewrite decide_False.
Qed.

(** A node created at a top-level name is found there. *)
Lemma fs_lookup_put_top (x : str) (new : node) (es : list (str * node)) :
  fs_lookup [x] (fs_put [x] new (Dir es)) = Some new.
Proof.
  rewrite fs_put_cons. destruct (entry_lookup x es) as [c|] eqn:E; rewrite fs_lookup_top.
  - rewrite (entry_lookup_alter x (fs_put [] new)), decide_True by done. by rewrite E.
  - rewrite entry_lookup_snoc, E. by rewrite decide_True.
Qed.

(** A directory stays a directory when something is created elsewhere or
    below it. *)
Lemma fs_lookup_put_keeps_dir (x : str) (out : path) (new t : node)
    (es : list (str * node)) :
  fs_lookup [x] t = Some (Dir es) → out ≠ [] → out ≠ [x] →
  ∃ es', fs_lookup [x] (fs_put out new t) = Some (Dir es').
Proof.
  intros Hdir Hne1 Hne2. destruct out as [|y q]; [done|].
  destruct (decide (y = x)) as [->|Hy].
  - destruct q as [|z q]; [done|].
    destruct t as [r|es0]; [done|]. rewrite fs_lookup_top in Hdir.
    rewrite fs_put_cons, Hdir, fs_lookup_top.
    rewrite (entry_lookup_alter x (fs_put (z :: q) new)), decide_True, Hdir by done.
    cbn [fmap option_fmap option_map]. rewrite fs_put_cons.
    destruct (entry_lookup z es); by eexists.
  - exists es. by rewrite fs_lookup_put_outside.
Qed.

Lemma scratch_absent_or_dir_put (t : node) (es : list (str * node)) :
  scratch_absent_or_dir (fs_put clone_dir (Dir es) t).
Proof.
  destruct t as [r|es0].
  - by left.
  - right. exists es. apply fs_lookup_put_top.
Qed.

(** What is created in an existing directory is found there. *)
Lemma fs_lookup_put_same (p : path) (new t : node) (es : list (str * node)) :
  p ≠ [] → fs_lookup (removelast p) t = Some (Dir es) →
  fs_lookup p (fs_put p new t) = Some new.
Proof.
  revert t es. induction p as [|x p IH]; intros t es Hne Hparent; [done|].
  destruct p as [|y q].
  - cbn [removelast fs_lookup] in Hparent. injection Hparent as ->.
    apply fs_lookup_put_top.
  - change (removelast (x :: y :: q)) with (x :: removelast (y :: q)) in Hparent.
    destruct t as [r|es0]; [done|]. cbn [fs_lookup] in Hparent.
    destruct (entry_lookup x es0) as [c|] eqn:E; [|done].
    rewrite fs_put_cons, E. cbn [fs_lookup].
    rewrite (entry_lookup_alter x (fs_put (y :: q) new)), decide_True, E by done.
    cbn [fmap option_fmap option_map]. by apply (IH c es).
Qed.

(** ** Runs of the steps of main *)

Lemma rmtree_run (p : path) (w : world) :
  rmtree p w
    = match fs_lookup p (fs w) with
      | Some (Dir _) => (Ok (), World (fs_remove p (fs w)) (log w ++ [EvRmtree p]))
      | Some (File _) =>
          (Raise (rmtree_not_a_directory p), World (fs w) (log w ++ [EvRmtree p]))
      | None => (Raise (lookup_error (fs w) p), World (fs w) (log w ++ [EvRmtree p]))
      end.
Proof.
  unfold rmtree, bind, emit, get_fs. cbn [fs log].
  by destruct (fs_lookup p (fs w)) as [[r|es]|].
Qed.

Lemma run_git_clone_run (E : env) (repo_url : str) (d : path) (w : world) :
  run_git_clone E repo_url d w
    = (if decide ((git_clone E repo_url d).1 = 0) then Ok ()
       else Raise (called_process_error (git_clone_cmd repo_url d)
                     (git_clone E repo_url d).1),
       World (match (git_clone E repo_url d).2 with
              | Some es => fs_put d (Dir es) (fs w)
              | None => fs w
              end)
             (log w ++ [EvGitClone repo_url d])).
Proof.
  unfold run_git_clone, bind, emit, get_fs. cbn [fs log].
  destruct (git_clone E repo_url d) as [rc [es|]]; cbn [fst snd];
    unfold set_fs, ret, raise; cbn [fs log]; by destruct (decide (rc = 0)).
Qed.

(** [clone_repo]: a directory at the scratch path is removed and [git] then
    runs on a world without it; a regular file there makes [rmtree] raise. *)
Lemma clone_repo_run (E : env) (repo_url : str) (d : path) (w : world) :
  clone_repo E repo_url d w
    = match fs_lookup d (fs w) with
      | Some (Dir _) =>
          run_git_clone E repo_url d
            (World (fs_remove d (fs w))
               (log w ++ [EvRmtree d; EvPrint (cloning_line repo_url d)]))
      | Some (File _) =>
          (Raise (rmtree_not_a_directory d), World (fs w) (log w ++ [EvRmtree d]))
      | None =>
          run_git_clone E repo_url d
            (World (fs w) (log w ++ [EvPrint (cloning_line repo_url d)]))
      end.
Proof.
  unfold clone_repo, bind at 1 2 3, get_fs, path_exists.
  destruct (fs_lookup d (fs w)) as [[r|es]|] eqn:Hd.
  - rewrite rmtree_run, Hd. done.
  - rewrite rmtree_run, Hd. unfold print, emit. cbn [fs log].
    by rewrite <- app_assoc.
  - done.
Qed.

Lemma main_finally_run (w : world) :
  main_finally w
    = match fs_lookup clone_dir (fs w) with
      | Some (Dir _) =>
          (Ok (), World (fs_remove clone_dir (fs w)) (log w ++ [EvRmtree clone_dir]))
      | Some (File _) =>
          (Raise (rmtree_not_a_directory clone_dir),
           World (fs w) (log w ++ [EvRmtree clone_dir]))
      | None => (Ok (), w)
      end.
Proof.
  unfold main_finally, bind, get_fs, path_exists.
  destruct (fs_lookup clone_dir (fs w)) as [[r|es]|] eqn:Hd.
  - by rewrite rmtree_run, Hd.
  - by rewrite rmtree_run, Hd.
  - done.
Qed.

(** The [try] body of [main] is its part before the write followed by the
    write. *)
Lemma main_try_split (E : env) (repo_url api_key : str) (output_file : path)
    (w : world) :
  main_try E repo_url api_key output_file w
    = bind (main_before_write E repo_url api_key) (main_write E output_file) w.
Proof.
  unfold main_try, main_before_write, main_write, bind, get_fs, lift, ret.
  destruct (clone_repo E repo_url clone_dir w) as [[[]|e] w1]; [|done].
  destruct (collect_code_files (fs w1) clone_dir) as [[|f code_files]|e]; [| |done].
  - by destruct (print _ w1) as [[[]|e] w2].
  - destruct (print _ w1) as [[[]|e] w2]; [|done].
    destruct (read_snippets (fs w2) clone_dir (f :: code_files) []) as [snippets|e]; [|done].
    by destruct (get_code_review E (build_prompt snippets repo_url) api_key w2)
      as [[review|e] w3].
Qed.

(** [write_text] of a string into an existing directory, at a path that is
    not a directory: the file is created or emptied, and holds the text
    unless the text cannot be encoded. *)
Lemma write_text_run (p : path) (s : str) (w : world) (es : list (str * node)) :
  (∀ es', fs_lookup p (fs w) ≠ Some (Dir es')) →
  fs_lookup (removelast p) (fs w) = Some (Dir es) →
  write_text p (JStr s) w
    = if encodable s
      then (Ok (), World (fs_put p (File (Ok s)) (fs w)) (log w ++ [EvWriteText p s]))
      else (Raise (unicode_encode_error s),
            World (fs_put p (File (Ok [])) (fs w)) (log w ++ [EvWriteText p s])).
Proof.
  intros Hnodir Hparent. unfold write_text, bind, emit, get_fs, set_fs, raise.
  cbn [fs log]. rewrite Hparent.
  destruct (fs_lookup p (fs w)) as [[r|es0]|] eqn:Hp;
    [by destruct (encodable s) | by destruct (Hnodir es0) | by destruct (encodable s)].
Qed.

Lemma write_text_log (p : path) (data : json) (w : world) :
  ∃ evs, log (write_text p data w).2 = log w ++ evs.
Proof.
  destruct data; try (exists []; by rewrite app_nil_r).
  unfold write_text, bind, emit, get_fs, set_fs, raise. cbn [fs log].
  destruct (fs_lookup p (fs w)) as [[r|es0]|];
    try destruct (fs_lookup (removelast p) (fs w)) as [[r'|es1]|];
    try destruct (encodable s); by eexists.
Qed.

(** ** Effects of a run *)

Ltac no_event :=
  unfold no_write, no_post; intros;
  rewrite ?elem_of_app, ?elem_of_cons, ?elem_of_nil; intuition discriminate.

Lemma no_write_app (evs1 evs2 : list event) :
  no_write evs1 → no_write evs2 → no_write (evs1 ++ evs2).
Proof. unfold no_write. intros H1 H2 p data [?|?]%elem_of_app; [by eapply H1 | by eapply H2]. Qed.

Lemma no_post_app (evs1 evs2 : list event) :
  no_post evs1 → no_post evs2 → no_post (evs1 ++ evs2).
Proof. unfold no_post. intros H1 H2 rq [?|?]%elem_of_app; [by eapply H1 | by eapply H2]. Qed.

(** [clone_repo] touches the scratch path only, writes no file, posts
    nothing, and leaves the scratch path absent or a directory unless it was
    a regular file. *)
Lemma clone_repo_effect (E : env) (repo_url : str) (w : world) :
  (∀ y q, y ≠ py "temp_repo_clone" →
     fs_lookup (y :: q) (fs (clone_repo E repo_url clone_dir w).2) = fs_lookup (y :: q) (fs w)) ∧
  (∃ evs, log (clone_repo E repo_url clone_dir w).2 = log w ++ evs ∧
          no_write evs ∧ no_post evs) ∧
  (scratch_absent_or_dir (fs w) →
     scratch_absent_or_dir (fs (clone_repo E repo_url clone_dir w).2)) ∧
  ((clone_repo E repo_url clone_dir w).1 = Ok () →
     scratch_absent_or_dir (fs (clone_repo E repo_url clone_dir w).2)).
Proof.
  rewrite clone_repo_run.
  destruct (fs_lookup clone_dir (fs w)) as [[r|es]|] eqn:Hd.
  - cbn [fst snd fs log]. split_and!.
    + done.
    + eexists. split; [done|]. split; no_event.
    + intros [?|[? ?]]; congruence.
    + done.
  - rewrite run_git_clone_run. cbn [fst snd fs log]. split_and!.
    + intros y q Hy. destruct (git_clone E repo_url clone_dir).2 as [es'|].
      * unfold clone_dir. rewrite fs_lookup_put_outside by done.
        by apply fs_lookup_remove_outside.
      * by apply fs_lookup_remove_outside.
    + eexists. rewrite <- app_assoc. split; [done|]. split; no_event.
    + intros _. destruct (git_clone E repo_url clone_dir).2 as [es'|].
      * apply scratch_absent_or_dir_put.
      * left. apply fs_lookup_remove_same.
    + intros _. destruct (git_clone E repo_url clone_dir).2 as [es'|].
      * apply scratch_absent_or_dir_put.
      * left. apply fs_lookup_remove_same.
  - rewrite run_git_clone_run. cbn [fst snd fs log]. split_and!.
    + intros y q Hy. destruct (git_clone E repo_url clone_dir).2 as [es'|]; [|done].
      unfold clone_dir. by rewrite fs_lookup_put_outside.
    + eexists. rewrite <- app_assoc. split; [done|]. split; no_event.
    + intros _. destruct (git_clone E repo_url clone_dir).2 as [es'|].
      * apply scratch_absent_or_dir_put.
      * by left.
    + intros _. destruct (git_clone E repo_url clone_dir).2 as [es'|].
      * apply scratch_absent_or_dir_put.
      * by left.
Qed.

(** A non-empty collection comes from a directory. *)
Lemma collect_nonempty_dir (t : node) (root f : path) (code_files : list path) :
  collect_code_files t root = Ok (f :: code_files) →
  ∃ es, fs_lookup root t = Some (Dir es).
Proof.
  rewrite collect_code_files_eq. unfold collected, candidates.
  destruct (fs_lookup root t) as [[r|es]|]; [done | by eexists | done].
Qed.

(** The part of [main] before the write: after [clone_repo] the file system
    is not touched and no file is written; a review is only obtained with
    the scratch directory in place. *)
Lemma main_before_write_effect (E : env) (repo_url api_key : str) (w : world) :
  ∃ evs,
    (main_before_write E repo_url api_key w).2
      = World (fs (clone_repo E repo_url clone_dir w).2)
              (log (clone_repo E repo_url clone_dir w).2 ++ evs) ∧
    no_write evs ∧
    (∀ review, (main_before_write E repo_url api_key w).1 = Ok (Some review) →
       ∃ es, fs_lookup clone_dir (fs (clone_repo E repo_url clone_dir w).2) = Some (Dir es)).
Proof.
  unfold main_before_write, bind, get_fs, lift, ret.
  destruct (clone_repo E repo_url clone_dir w) as [[[]|e] w1]; cbn [fst snd].
  2:{ exists []. rewrite app_nil_r. split_and!; [by destruct w1 | no_event | done]. }
  destruct (collect_code_files (fs w1) clone_dir) as [[|f code_files]|e] eqn:Hc.
  - exists [EvPrint no_files_line]. split; [done|]. split; [no_event | done].
  - unfold print, emit. cbn [fs log].
    destruct (read_snippets (fs w1) clone_dir (f :: code_files) []) as [snippets|e].
    + rewrite get_code_review_run. cbn [fs log]. eexists.
      rewrite <- app_assoc. split.
      * by destruct (match requests_post E _ with Ok r => _ | Raise e => _ end).
      * split; [no_event|]. intros _ _. by apply collect_nonempty_dir in Hc.
    + eexists. split; [done|]. split; [no_event | done].
  - exists []. rewrite app_nil_r. split_and!; [by destruct w1 | no_event | done].
Qed.

(** [write_text] leaves a scratch directory in place (possibly with one more
    file in it). *)
Lemma write_text_scratch (out : path) (data : json) (w : world)
    (es : list (str * node)) :
  fs_lookup clone_dir (fs w) = Some (Dir es) →
  ∃ es', fs_lookup clone_dir (fs (write_text out data w).2) = Some (Dir es').
Proof.
  intros Hd. destruct data; try (by exists es).
  unfold write_text, bind, emit, get_fs. cbn [fs log].
  assert (Hput : ∀ new, out ≠ [] → out ≠ clone_dir →
    ∃ es', fs_lookup clone_dir (fs_put out new (fs w)) = Some (Dir es')).
  { intros new H1 H2. by apply (fs_lookup_put_keeps_dir _ _ _ _ es). }
  assert (Hne : (∀ es0, fs_lookup out (fs w) ≠ Some (Dir es0)) →
                out ≠ [] ∧ out ≠ clone_dir).
  { intros Hno. split; intros ->.
    - cbn [fs_lookup] in Hno. destruct (fs w) as [r|es0]; [done|]. by destruct (Hno es0).
    - by destruct (Hno es). }
  destruct (fs_lookup out (fs w)) as [[r|es0]|] eqn:Hout; [| by exists es |].
  - destruct (fs_lookup (removelast out) (fs w)) as [[r'|es1]|];
      [by exists es | | by exists es].
    destruct Hne as [H1 H2]; [done|].
    unfold set_fs, raise. destruct (encodable s); cbn [snd fs]; by apply Hput.
  - destruct (fs_lookup (removelast out) (fs w)) as [[r'|es1]|];
      [by exists es | | by exists es].
    destruct Hne as [H1 H2]; [done|].
    unfold set_fs, raise. destruct (encodable s); cbn [snd fs]; by apply Hput.
Qed.

(** After the [try] body the scratch path is absent or a directory, if it
    was so before. *)
Lemma main_try_scratch (E : env) (repo_url api_key : str) (output_file : path)
    (w : world) :
  scratch_absent_or_dir (fs w) →
  scratch_absent_or_dir (fs (main_try E repo_url api_key output_file w).2).
Proof.
  intros Hw. rewrite main_try_split. unfold bind.
  destruct (main_before_write_effect E repo_url api_key w) as (evs & Hw2 & _ & Hdir).
  pose proof (clone_repo_effect E repo_url w) as (_ & _ & Hclone & _).
  destruct (main_before_write E repo_url api_key w) as [[[review|]|e] w2];
    cbn [fst snd] in *; subst w2; cbn [main_write].
  - destruct (Hdir review eq_refl) as [es Hes].
    unfold bind.
    destruct (write_text_scratch output_file review
                (World (fs (clone_repo E repo_url clone_dir w).2)
                   (log (clone_repo E repo_url clone_dir w).2 ++ evs)) es Hes)
      as [es' Hes'].
    destruct (write_text output_file review _) as [[[]|e] w3]; cbn [snd] in *.
    + right. by exists es'.
    + right. by exists es'.
  - by apply Hclone.
  - by apply Hclone.
Qed.

(** The world and the outcome of [main] in terms of its two blocks. *)
Lemma main_run (E : env) (repo_url api_key : str) (output_file : path) (w : world) :
  (main E repo_url api_key output_file w).2
    = (main_finally (main_try E repo_url api_key output_file w).2).2 ∧
  (main E repo_url api_key output_file w).1
    = match (main_finally (main_try E repo_url api_key output_file w).2).1 with
      | Ok _ => (main_try E repo_url api_key output_file w).1
      | Raise e => Raise e
      end.
Proof.
  unfold main, try_finally.
  destruct (main_try E repo_url api_key output_file w) as [r w1]. cbn [snd fst].
  by destruct (main_finally w1) as [[[]|e] w2].
Qed.

Lemma main_finally_effect (w : world) :
  (∀ y q, y ≠ py "temp_repo_clone" →
     fs_lookup (y :: q) (fs (main_finally w).2) = fs_lookup (y :: q) (fs w)) ∧
  (∃ evs, log (main_finally w).2 = log w ++ evs ∧ no_write evs ∧ no_post evs) ∧
  (scratch_absent_or_dir (fs w) →
     (main_finally w).1 = Ok () ∧ fs_lookup clone_dir (fs (main_finally w).2) = None).
Proof.
  rewrite main_finally_run.
  destruct (fs_lookup clone_dir (fs w)) as [[r|es]|] eqn:Hd; cbn [fst snd fs log].
  - split_and!; [done | eexists; split; [done|]; split; no_event |].
    intros [?|[? ?]]; congruence.
  - split_and!; [| eexists; split; [done|]; split; no_event |].
    + intros y q Hy. by apply fs_lookup_remove_outside.
    + intros _. split; [done|]. apply fs_lookup_remove_same.
  - split_and!; [done | | done].
    exists []. rewrite app_nil_r. split; [done|]. split; no_event.
Qed.


(** The log of a run extends the log of its part before the write. *)
Lemma main_log_extends (E : env) (repo_url api_key : str) (output_file : path)
    (w : world) :
  ∃ evs, log (main E repo_url api_key output_file w).2
           = log (main_before_write E repo_url api_key w).2 ++ evs.
Proof.
  destruct (main_run E repo_url api_key output_file w) as [-> _].
  destruct (main_finally_effect (main_try E repo_url api_key output_file w).2)
    as (_ & (evs3 & -> & _) & _).
  rewrite main_try_split. unfold bind.
  destruct (main_before_write E repo_url api_key w) as [[[review|]|e] w2]; cbn [snd].
  - cbn [main_write]. unfold bind.
    destruct (write_text_log output_file review w2) as [evs Hlog].
    destruct (write_text output_file review w2) as [[[]|e] w3]; cbn [snd] in *.
    + unfold print, emit. cbn [snd log]. rewrite Hlog, <- !app_assoc. by eexists.
    + rewrite Hlog, <- !app_assoc. by eexists.
  - by eexists.
  - by eexists.
Qed.

Lemma main_try_clone_raises (E : env) (repo_url api_key : str) (output_file : path)
    (w : world) (e : exn) :
  (clone_repo E repo_url clone_dir w).1 = Raise e →
  main_try E repo_url api_key output_file w = (Raise e, (clone_repo E repo_url clone_dir w).2).
Proof.
  unfold main_try, bind.
  destruct (clone_repo E repo_url clone_dir w) as [[[]|e'] w1]; cbn [fst snd]; [done|].
  by intros [= ->].
Qed.

(** The clean-up after the [try] body succeeds when the scratch path was
    absent or a directory at the start. *)
Lemma main_finally_succeeds (E : env) (repo_url api_key : str) (output_file : path)
    (w : world) :
  scratch_absent_or_dir (fs w) →
  (main_finally (main_try E repo_url api_key output_file w).2).1 = Ok ().
Proof.
  intros Hw.
  destruct (main_finally_effect (main_try E repo_url api_key output_file w).2)
    as (_ & _ & Hfin).
  by destruct (Hfin (main_try_scratch E repo_url api_key output_file w Hw)).
Qed.

(** A run that reaches the write with a string, at a path that is not a
    directory and lies in an existing directory: the whole of [main], as one
    equation. The file is created or emptied; it then holds the review, or
    the run ends in the encoding error. *)
Lemma main_write_run (E : env) (repo_url api_key : str) (output_file : path)
    (w : world) (s : str) (es : list (str * node)) :
  (main_before_write E repo_url api_key w).1 = Ok (Some (JStr s)) →
  fs_lookup (removelast output_file) (fs (clone_repo E repo_url clone_dir w).2)
    = Some (Dir es) →
  (∀ es', fs_lookup output_file (fs (clone_repo E repo_url clone_dir w).2)
            ≠ Some (Dir es')) →
  main E repo_url api_key output_file w
    = if encodable s
      then (Ok (),
            World (fs_remove clone_dir
                     (fs_put output_file (File (Ok s))
                        (fs (clone_repo E repo_url clone_dir w).2)))
                  (log (main_before_write E repo_url api_key w).2
                     ++ [EvWriteText output_file s; EvPrint (saved_line E output_file);
                         EvRmtree clone_dir]))
      else (Raise (unicode_encode_error s),
            World (fs_remove clone_dir
                     (fs_put output_file (File (Ok []))
                        (fs (clone_repo E repo_url clone_dir w).2)))
                  (log (main_before_write E repo_url api_key w).2
                     ++ [EvWriteText output_file s; EvRmtree clone_dir])).
Proof.
  intros Hreview Hparent Hnodir.
  destruct (main_before_write_effect E repo_url api_key w) as (evs & Hmbw & _ & Hdir).
  destruct (Hdir _ Hreview) as [es0 Hes0].
  assert (Hkeep : ∀ new, ∃ es1,
    fs_lookup clone_dir (fs_put output_file new (fs (clone_repo E repo_url clone_dir w).2))
      = Some (Dir es1)).
  { intros new. apply (fs_lookup_put_keeps_dir _ _ _ _ es0 Hes0).
    - intros ->. cbn [fs_lookup] in Hnodir.
      destruct (fs (clone_repo E repo_url clone_dir w).2) as [r|es2]; [done|].
      by destruct (Hnodir es2).
    - intros ->. by destruct (Hnodir es0). }
  assert (Htry : main_try E repo_url api_key output_file w
                 = bind (write_text output_file (JStr s))
                     (λ _, print (saved_line E output_file))
                     (World (fs (clone_repo E repo_url clone_dir w).2)
                        (log (main_before_write E repo_url api_key w).2))).
  { rewrite main_try_split. unfold bind at 1.
    destruct (main_before_write E repo_url api_key w) as [r w2]. cbn [fst snd] in *.
    subst r w2. reflexivity. }
  unfold main, try_finally. rewrite Htry. unfold bind.
  rewrite (write_text_run _ _ _ es) by done. cbn [fs log].
  destruct (encodable s).
  - unfold print, emit. cbn [fs log]. rewrite main_finally_run. cbn [fs log].
    destruct (Hkeep (File (Ok s))) as [es1 ->]. by rewrite <- !app_assoc.
  - rewrite main_finally_run. cbn [fs log].
    destruct (Hkeep (File (Ok []))) as [es1 ->]. by rewrite <- !app_assoc.
Qed.

(** Where the output file is looked up after such a run, for an output path
    outside the scratch directory whose parent exists at the start. *)
Lemma main_write_place (E : env) (repo_url api_key : str) (output_file : path)
    (w : world) (review : json) (es : list (str * node)) :
  (main_before_write E repo_url api_key w).1 = Ok (Some review) →
  outside_scratch output_file →
  fs_lookup (removelast output_file) (fs w) = Some (Dir es) →
  (∀ es', fs_lookup output_file (fs w) ≠ Some (Dir es')) →
  (∃ es2, fs_lookup (removelast output_file) (fs (clone_repo E repo_url clone_dir w).2)
            = Some (Dir es2)) ∧
  (∀ es', fs_lookup output_file (fs (clone_repo E repo_url clone_dir w).2)
            ≠ Some (Dir es')) ∧
  (∀ new, fs_lookup output_file
            (fs_remove clone_dir
               (fs_put output_file new (fs (clone_repo E repo_url clone_dir w).2)))
          = Some new).
Proof.
  intros Hreview Hout Hparent Hnodir.
  destruct output_file as [|y q]; [done|]. cbn [outside_scratch] in Hout.
  destruct (main_before_write_effect E repo_url api_key w) as (_ & _ & _ & Hdir).
  destruct (Hdir _ Hreview) as [es0 Hes0].
  pose proof (clone_repo_effect E repo_url w) as (Hsame & _).
  assert (Hparent' : ∃ es2, fs_lookup (removelast (y :: q))
                              (fs (clone_repo E repo_url clone_dir w).2) = Some (Dir es2)).
  { destruct q as [|z q].
    - cbn [removelast fs_lookup].
      destruct (fs (clone_repo E repo_url clone_dir w).2) as [r|es2]; [done | by eexists].
    - change (removelast (y :: z :: q)) with (y :: removelast (z :: q)) in *.
      exists es. by rewrite Hsame. }
  split_and!.
  - done.
  - intros es'. rewrite Hsame by done. apply Hnodir.
  - intros new. destruct Hparent' as [es2 Hes2].
    unfold clone_dir. rewrite fs_lookup_remove_outside by done.
    by apply (fs_lookup_put_same _ _ _ es2).
Qed.

(** ** The scratch directory *)


(** ** The output file *)


(** ** The empty case *)

(** C7: when the clone has succeeded and the collector returns the empty
    list, [main] returns normally after printing its message; the run has no
    [write_text] and no [requests.post] event (so no prompt is sent), and an
    output path outside the scratch directory is left as it was. *)
Theorem main_no_files (E : env) (repo_url api_key : str) (output_file : path)
    (w w1 : world) :
  clone_repo E repo_url clone_dir w = (Ok (), w1) →
  collect_code_files (fs w1) clone_dir = Ok [] →
  (main E repo_url api_key output_file w).1 = Ok () ∧
  (∃ evs, log (main E repo_url api_key output_file w).2 = log w ++ evs ∧
          EvPrint no_files_line ∈ evs ∧ no_write evs ∧ no_post evs) ∧
  (outside_scratch output_file →
     fs_lookup output_file (fs (main E repo_url api_key output_file w).2)
       = fs_lookup output_file (fs w)).
Proof.
  intros Hclone Hcollect.
  pose proof (clone_repo_effect E repo_url w) as (Hout1 & (evs1 & Hlog1 & Hnw1 & Hnp1) & _ & Hsc).
  rewrite Hclone in Hout1, Hlog1, Hsc. cbn [fst snd] in *. specialize (Hsc eq_refl).
  assert (Htry : main_try E repo_url api_key output_file w
                 = (Ok (), World (fs w1) (log w1 ++ [EvPrint no_files_line]))).
  { unfold main_try, bind, get_fs, lift. by rewrite Hclone, Hcollect. }
  destruct (main_run E repo_url api_key output_file w) as [-> ->].
  rewrite Htry. cbn [fst snd].
  pose proof (main_finally_effect (World (fs w1) (log w1 ++ [EvPrint no_files_line])))
    as (Hout3 & (evs3 & Hlog3 & Hnw3 & Hnp3) & Hfin).
  cbn [fs log] in *. destruct (Hfin Hsc) as [Hok _]. rewrite Hok. split_and!.
  - done.
  - exists (evs1 ++ [EvPrint no_files_line] ++ evs3).
    rewrite Hlog3, Hlog1, <- !app_assoc. split_and!.
    + done.
    + rewrite !elem_of_app, elem_of_cons. auto.
    + repeat apply no_write_app; [done | no_event | done].
    + repeat apply no_post_app; [done | no_event | done].
  - destruct output_file as [|y q]; [done|]. cbn [outside_scratch]. intros Hy.
    by rewrite Hout3, Hout1.
Qed.

(** ** collect_code_files: the relative path *)

(** X5: inside [collect_code_files], [relative_to] cannot fail: every path
    that [rglob] yields lies strictly below the root, so
    [file_path.relative_to(root)] returns the rest of the path, which is not
    empty. *)
Theorem collect_code_files_relative_to_ok (root p : path) (n : node) :
  p ∈ rglob root n →
  ∃ rel, relative_to p root = Ok rel ∧ p = root ++ rel ∧ rel ≠ [].
Proof.
  intros (rel & -> & Hne)%rglob_below. exists rel. by rewrite relative_to_app.
Qed.

(** ** get_code_review: malformed bodies *)

Lemma repr_choices : repr (py "choices") = py "'choices'".
Proof. vm_compute. reflexivity. Qed.

(** X11: with status 200, a body that does not decode makes [get_code_review]
    raise the decoding error; a decoded object without [choices] gives
    [KeyError('choices')]; an empty list of choices gives [IndexError]. *)
Theorem get_code_review_malformed (E : env) (prompt api_key : str) (w : world)
    (r : response) :
  requests_post E (review_request prompt api_key) = Ok r →
  status_code r = 200 →
  (∀ e, json_of r = Raise e → (get_code_review E prompt api_key w).1 = Raise e) ∧
  (∀ members, json_of r = Ok (JObj members) → member_lookup (py "choices") members = None →
     (get_code_review E prompt api_key w).1 = Raise (Exc KeyError (py "'choices'"))) ∧
  (∀ members, json_of r = Ok (JObj members) →
     member_lookup (py "choices") members = Some (JArr []) →
     (get_code_review E prompt api_key w).1
       = Raise (Exc IndexError (py "list index out of range"))).
Proof.
  intros Hpost H200. rewrite get_code_review_run, Hpost. cbn [fst].
  unfold review_of_response. rewrite decide_False by (by intros ?).
  unfold first_content. split_and!.
  - by intros e ->.
  - intros members -> Hnone. cbn [subscript_key]. by rewrite Hnone, repr_choices.
  - intros members -> Hempty. cbn [subscript_key]. by rewrite Hempty.
Qed.

(** ** clone_repo: what it leaves alone *)


(** ** main: outcomes *)


(** X14: when [git clone] ends with a non-zero return code (and the scratch
    path was absent or a directory), [main] raises the [CalledProcessError]
    of [subprocess.run] for the command and that return code; the endpoint
    is never contacted and nothing is written. *)
Theorem main_clone_failure (E : env) (repo_url api_key : str) (output_file : path)
    (w : world) :
  scratch_absent_or_dir (fs w) →
  (git_clone E repo_url clone_dir).1 ≠ 0 →
  (main E repo_url api_key output_file w).1
    = Raise (called_process_error (git_clone_cmd repo_url clone_dir)
               (git_clone E repo_url clone_dir).1) ∧
  ∃ evs, log (main E repo_url api_key output_file w).2 = log w ++ evs ∧
         no_post evs ∧ no_write evs.
Proof.
  intros Hw Hrc.
  assert (Hclone : (clone_repo E repo_url clone_dir w).1
            = Raise (called_process_error (git_clone_cmd repo_url clone_dir)
                       (git_clone E repo_url clone_dir).1)).
  { rewrite clone_repo_run.
    destruct Hw as [->|[es ->]]; rewrite run_git_clone_run; cbn [fst];
      by rewrite decide_False. }
  pose proof (main_try_clone_raises E repo_url api_key output_file w _ Hclone) as Htry.
  split.
  - destruct (main_run E repo_url api_key output_file w) as [_ ->].
    rewrite main_finally_succeeds by done. by rewrite Htry.
  - destruct (main_run E repo_url api_key output_file w) as [-> _]. rewrite Htry. cbn [snd].
    destruct (clone_repo_effect E repo_url w) as (_ & (evs1 & Hlog1 & Hnw1 & Hnp1) & _).
    destruct (main_finally_effect (clone_repo E repo_url clone_dir w).2)
      as (_ & (evs3 & -> & Hnw3 & Hnp3) & _).
    exists (evs1 ++ evs3). rewrite Hlog1, <- app_assoc.
    split; [done|]. split; [by apply no_post_app | by apply no_write_app].
Qed.

(** X15: when the value at [choices[0].message.content] is not a string (for
    instance [null]), [get_code_review] returns it without complaint and
    [write_text] then raises [TypeError], naming the type it was given: the
    run fails and writes nothing. *)
Theorem main_review_not_a_string (E : env) (repo_url api_key : str)
    (output_file : path) (w : world) (review : json) :
  (main_before_write E repo_url api_key w).1 = Ok (Some review) →
  (∀ s, review ≠ JStr s) →
  (main E repo_url api_key output_file w).1
    = Raise (Exc TypeError (py "data must be str, not " ++ type_name review)) ∧
  ∃ evs, log (main E repo_url api_key output_file w).2 = log w ++ evs ∧ no_write evs.
Proof.
  intros Hreview Hnostr.
  destruct (main_before_write_effect E repo_url api_key w) as (evs & Hmbw & Hnw & Hdir).
  destruct (Hdir review Hreview) as [es Hes].
  pose proof (clone_repo_effect E repo_url w) as (_ & (evs1 & Hlog1 & Hnw1 & _) & _).
  assert (Htry : main_try E repo_url api_key output_file w
                 = (Raise (Exc TypeError (py "data must be str, not " ++ type_name review)),
                    (main_before_write E repo_url api_key w).2)).
  { rewrite main_try_split. unfold bind.
    destruct (main_before_write E repo_url api_key w) as [r w2]. cbn [fst snd] in *.
    subst r. cbn [main_write]. unfold bind.
    destruct review; try done. by destruct (Hnostr s). }
  destruct (main_run E repo_url api_key output_file w) as [-> ->].
  rewrite Htry, Hmbw. cbn [fst snd]. rewrite main_finally_run. cbn [fs log]. rewrite Hes.
  cbn [fst snd log]. split; [done|].
  exists (evs1 ++ evs ++ [EvRmtree clone_dir]). rewrite Hlog1, <- !app_assoc.
  split; [done|]. repeat apply no_write_app; [done | done | no_event].
Qed.

(** ** main: the report *)

(** X16: when the review is a string that UTF-8 can encode and the output
    path lies outside the scratch directory, in an existing directory, and
    is not itself a directory, the run returns normally, the output file
    then holds exactly the review text, and the scratch directory is gone. *)
Theorem main_writes_review (E : env) (repo_url api_key : str) (output_file : path)
    (w : world) (s : str) (es : list (str * node)) :
  (main_before_write E repo_url api_key w).1 = Ok (Some (JStr s)) →
  encodable s = true →
  outside_scratch output_file →
  fs_lookup (removelast output_file) (fs w) = Some (Dir es) →
  (∀ es', fs_lookup output_file (fs w) ≠ Some (Dir es')) →
  (main E repo_url api_key output_file w).1 = Ok () ∧
  fs_lookup output_file (fs (main E repo_url api_key output_file w).2)
    = Some (File (Ok s)) ∧
  fs_lookup clone_dir (fs (main E repo_url api_key output_file w).2) = None ∧
  EvWriteText output_file s ∈ log (main E repo_url api_key output_file w).2.
Proof.
  intros Hreview Henc Hout Hparent Hnodir.
  destruct (main_write_place E repo_url api_key output_file w _ es Hreview Hout Hparent Hnodir)
    as ([es2 Hes2] & Hnodir' & Hfound).
  rewrite (main_write_run E repo_url api_key output_file w s es2), Henc by done.
  cbn [fst snd fs log]. split_and!.
  - done.
  - apply Hfound.
  - apply fs_lookup_remove_same.
  - rewrite elem_of_app, elem_of_cons. auto.
Qed.

(** X17: with the output path directly inside the scratch directory, a run
    whose review is a string that UTF-8 can encode returns normally and
    performs the write, and the report is then deleted with the clone: at
    the end the output path is absent. *)
Theorem main_report_in_scratch_is_lost (E : env) (repo_url api_key : str)
    (x : str) (w : world) (s : str) :
  (main_before_write E repo_url api_key w).1 = Ok (Some (JStr s)) →
  encodable s = true →
  (∀ es', fs_lookup (clone_dir ++ [x]) (fs (clone_repo E repo_url clone_dir w).2)
            ≠ Some (Dir es')) →
  (main E repo_url api_key (clone_dir ++ [x]) w).1 = Ok () ∧
  EvWriteText (clone_dir ++ [x]) s ∈ log (main E repo_url api_key (clone_dir ++ [x]) w).2 ∧
  fs_lookup (clone_dir ++ [x]) (fs (main E repo_url api_key (clone_dir ++ [x]) w).2) = None.
Proof.
  intros Hreview Henc Hnodir.
  destruct (main_before_write_effect E repo_url api_key w) as (_ & _ & _ & Hdir).
  destruct (Hdir _ Hreview) as [es0 Hes0].
  rewrite (main_write_run E repo_url api_key (clone_dir ++ [x]) w s es0), Henc by done.
  cbn [fst snd fs log]. split_and!.
  - done.
  - rewrite elem_of_app, elem_of_cons. auto.
  - rewrite fs_lookup_app. unfold clone_dir at 1. by rewrite fs_lookup_remove_same.
Qed.

(** X18: when the clone has succeeded and the collector returns a non-empty
    list, the run sends one request that carries the prompt built from one
    snippet per collected file, with the API key as bearer token. *)
Theorem main_posts_built_prompt (E : env) (repo_url api_key : str)
    (output_file : path) (w w1 : world) (f : path) (code_files : list path) :
  clone_repo E repo_url clone_dir w = (Ok (), w1) →
  collect_code_files (fs w1) clone_dir = Ok (f :: code_files) →
  ∃ snippets,
    read_snippets (fs w1) clone_dir (f :: code_files) [] = Ok snippets ∧
    length snippets = length (f :: code_files) ∧
    EvPost (review_request (build_prompt snippets repo_url) api_key)
      ∈ log (main E repo_url api_key output_file w).2.
Proof.
  intros Hclone Hcollect.
  destruct (read_snippets_acc (fs w1) clone_dir (f :: code_files) []) as (snippets & Hread & Hf2).
  { rewrite collect_code_files_eq in Hcollect. injection Hcollect as <-.
    apply Forall_forall. intros p (rel & -> & _)%collected_selected. by exists rel. }
  exists snippets. split; [done|]. split; [symmetry; by apply (Forall2_length _ _ _ Hf2)|].
  destruct (main_log_extends E repo_url api_key output_file w) as [evs ->].
  apply elem_of_app. left.
  unfold main_before_write, bind, get_fs, lift. rewrite Hclone, Hcollect.
  cbn [app] in Hread.
  unfold print, emit. cbn [fs log]. rewrite Hread, get_code_review_run. cbn [fs log].
  destruct (match requests_post E _ with Ok r => _ | Raise e => _ end);
    unfold ret; cbn [snd log]; rewrite !elem_of_app, !elem_of_cons; auto.
Qed.

(** X19: when the review is a string that UTF-8 cannot encode (it holds a
    surrogate) and the output path lies outside the scratch directory, in an
    existing directory, and is not itself a directory, the run ends in the
    [UnicodeEncodeError] of the write; the output file has then been created
    or emptied and holds no text, and the scratch directory is gone. *)
Theorem main_review_not_encodable (E : env) (repo_url api_key : str) (output_file : path)
    (w : world) (s : str) (es : list (str * node)) :
  (main_before_write E repo_url api_key w).1 = Ok (Some (JStr s)) →
  encodable s = false →
  outside_scratch output_file →
  fs_lookup (removelast output_file) (fs w) = Some (Dir es) →
  (∀ es', fs_lookup output_file (fs w) ≠ Some (Dir es')) →
  (main E repo_url api_key output_file w).1 = Raise (unicode_encode_error s) ∧
  fs_lookup output_file (fs (main E repo_url api_key output_file w).2)
    = Some (File (Ok [])) ∧
  fs_lookup clone_dir (fs (main E repo_url api_key output_file w).2) = None.
Proof.
  intros Hreview Henc Hout Hparent Hnodir.
  destruct (main_write_place E repo_url api_key output_file w _ es Hreview Hout Hparent Hnodir)
    as ([es2 Hes2] & Hnodir' & Hfound).
  rewrite (main_write_run E repo_url api_key output_file w s es2), Henc by done.
  cbn [fst snd fs log]. split_and!.
  - done.
  - apply Hfound.
  - apply fs_lookup_remove_same.
Qed.
End model.

(** * Examples and counterexamples, on the sample runtime *)

(** ** build_prompt *)

(** C1, as stated, fails: with a repository URL of [MAX_TOTAL_CHARS]
    characters and no file at all, the prompt is the preamble alone and is
    longer than the budget. *)
Lemma build_prompt_budget_counterexample :
  ¬ (∀ (code_snippets : list (path * str)) (repo_url : str),
       len (build_prompt code_snippets repo_url) ≤ MAX_TOTAL_CHARS).
Proof.
  intros H. specialize (H [] long_text). vm_compute in H. by apply H.
Qed.


(** Witness for X2: two short files; and one file of 50000 accented letters,
    which is counted by its characters and so fits. *)
Lemma build_prompt_whole_input_witness :
  build_prompt small_snippets (py "u") = intro (py "u") ++ join (block <$> small_snippets) ∧
  build_prompt accented_snippets (py "u")
    = intro (py "u") ++ join (block <$> accented_snippets).
Proof.
  split.
  - apply (build_prompt_whole_input small_snippets (py "u")).
    intros j Hj. destruct j as [|[|j]]; [vm_compute; discriminate.. | simpl in Hj; lia].
  - apply (build_prompt_whole_input accented_snippets (py "u")).
    intros j Hj. destruct j as [|j]; [vm_compute; discriminate | simpl in Hj; lia].
Defined.

(** ** collect_code_files *)



(** Witness for X5: [src/Main.JS] of the sample repository. *)
Lemma collect_code_files_relative_to_ok_witness :
  (clone_dir ++ [py "src"; py "Main.JS"]) ∈ rglob clone_dir (Dir sample_repo) ∧
  ∃ rel, relative_to sample_lib (clone_dir ++ [py "src"; py "Main.JS"]) clone_dir = Ok rel ∧
         clone_dir ++ [py "src"; py "Main.JS"] = clone_dir ++ rel ∧ rel ≠ [].
Proof.
  assert (H : (clone_dir ++ [py "src"; py "Main.JS"]) ∈ rglob clone_dir (Dir sample_repo)).
  { apply (bool_decide_unpack _). vm_compute. exact I. }
  split; [exact H|].
  exact (collect_code_files_relative_to_ok sample_lib clone_dir
           (clone_dir ++ [py "src"; py "Main.JS"]) (Dir sample_repo) H).
Defined.

(** Witness for X6: no clone at all, and a regular file at the scratch path. *)
Lemma collect_code_files_no_directory_witness :
  collect_code_files sample_lib (Dir []) clone_dir = Ok [] ∧
  collect_code_files sample_lib (fs world_stale_file) clone_dir = Ok [].
Proof.
  split.
  - apply (collect_code_files_no_directory sample_lib (Dir []) clone_dir). by left.
  - apply (collect_code_files_no_directory sample_lib (fs world_stale_file) clone_dir).
    right. by eexists.
Defined.

(** Witness for X7: [.env] and [Makefile] are left out; [main.go] is kept. *)
Lemma collect_code_files_skips_plain_names_witness :
  collect_code_files sample_lib dotfile_fs clone_dir = Ok [clone_dir ++ [py "main.go"]] ∧
  ((clone_dir ++ [py ".env"]) ∉ [clone_dir ++ [py "main.go"]]) ∧
  ((clone_dir ++ [py "Makefile"]) ∉ [clone_dir ++ [py "main.go"]]).
Proof.
  split; [vm_compute; reflexivity|]. split.
  - apply (collect_code_files_skips_plain_names sample_lib dotfile_fs clone_dir
             (clone_dir ++ [py ".env"]) _ dot (py "env"));
      [vm_compute; reflexivity | reflexivity |].
    apply (bool_decide_unpack _). vm_compute. exact I.
  - apply (collect_code_files_skips_plain_names sample_lib dotfile_fs clone_dir
             (clone_dir ++ [py "Makefile"]) _ 77%N (py "akefile"));
      [vm_compute; reflexivity | reflexivity |].
    apply (bool_decide_unpack _). vm_compute. exact I.
Defined.

(** Witness for X8: [node_modules/dep.js] of the sample repository. *)
Lemma collect_code_files_prunes_witness :
  is_file sample_fs (clone_dir ++ [py "node_modules"; py "dep.js"]) = true ∧
  (clone_dir ++ [py "node_modules"; py "dep.js"]) ∉ sample_files.
Proof.
  split; [reflexivity|].
  apply (collect_code_files_prunes sample_lib sample_fs clone_dir
           [py "node_modules"; py "dep.js"] _ (py "node_modules")).
  - vm_compute. reflexivity.
  - apply (bool_decide_unpack _). vm_compute. exact I.
  - apply (bool_decide_unpack _). vm_compute. exact I.
Defined.

(** Witness for X9: the sample clone listed in the opposite order. *)
Lemma collect_code_files_same_files_witness :
  sample_fs ≠ sample_fs_reordered ∧
  collect_code_files sample_lib sample_fs clone_dir
    = collect_code_files sample_lib sample_fs_reordered clone_dir.
Proof.
  split; [discriminate|].
  apply (collect_code_files_same_files sample_lib sample_fs sample_fs_reordered clone_dir).
  - simpl. repeat split; apply (bool_decide_unpack _); vm_compute; exact I.
  - simpl. repeat split; apply (bool_decide_unpack _); vm_compute; exact I.
  - intros p. unfold is_file. f_equal. destruct p as [|x p]; [done|].
    unfold sample_fs, sample_fs_reordered. cbn [fs_lookup entry_lookup fst snd].
    destruct (decide (py "temp_repo_clone" = x)); [|done].
    destruct p as [|y p]; [done|]. cbn [fs_lookup].
    rewrite (entry_lookup_Permutation y sample_repo (reverse sample_repo)); [done | |].
    + apply (bool_decide_unpack _). vm_compute. exact I.
    + by rewrite reverse_Permutation.
Defined.

(** ** read_file_safe and the reading loop *)

(** Witness for C6: a readable file, an undecodable one, a missing one, and
    a path that runs through a regular file. *)
Lemma read_file_safe_total_witness :
  read_file_safe sample_lib sample_fs (clone_dir ++ [py "app.py"]) = Ok (py "x = 1") ∧
  read_file_safe sample_lib sample_fs (clone_dir ++ [py "src"; py "Main.JS"])
    = Ok (py "[ERROR reading file: 'utf-8' codec can't decode byte 0xff in position 0: invalid start byte]") ∧
  read_file_safe sample_lib sample_fs (clone_dir ++ [py "gone.py"])
    = Ok (py "[ERROR reading file: [Errno 2] No such file or directory: 'temp_repo_clone/gone.py']") ∧
  read_file_safe sample_lib sample_fs (clone_dir ++ [py "app.py"; py "x.py"])
    = Ok (py "[ERROR reading file: [Errno 20] Not a directory: 'temp_repo_clone/app.py/x.py']").
Proof.
  split_and!.
  - apply (proj1 (proj2 (read_file_safe_total sample_lib sample_fs
                           (clone_dir ++ [py "app.py"])))).
    reflexivity.
  - apply (proj2 (proj2 (read_file_safe_total sample_lib sample_fs
                           (clone_dir ++ [py "src"; py "Main.JS"]))) undecodable).
    reflexivity.
  - apply (proj2 (proj2 (read_file_safe_total sample_lib sample_fs
                           (clone_dir ++ [py "gone.py"])))
             (Exc FileNotFoundError
                (py "[Errno 2] No such file or directory: 'temp_repo_clone/gone.py'"))).
    vm_compute. reflexivity.
  - apply (proj2 (proj2 (read_file_safe_total sample_lib sample_fs
                           (clone_dir ++ [py "app.py"; py "x.py"])))
             (Exc NotADirectoryError
                (py "[Errno 20] Not a directory: 'temp_repo_clone/app.py/x.py'"))).
    vm_compute. reflexivity.
Defined.

(** Witness for X10: the sample repository, with its undecodable file. *)
Lemma read_snippets_one_per_file_witness :
  read_snippets sample_lib sample_fs clone_dir sample_files []
    = Ok [([py "README.md"], py "# demo"); ([py "app.py"], py "x = 1");
          ([py "src"; py "Main.JS"],
           py "[ERROR reading file: 'utf-8' codec can't decode byte 0xff in position 0: invalid start byte]")] ∧
  ∃ snippets,
    read_snippets sample_lib sample_fs clone_dir sample_files [] = Ok snippets ∧
    Forall2 (λ f sn, f = clone_dir ++ sn.1 ∧ read_file_safe sample_lib sample_fs f = Ok sn.2)
      sample_files snippets.
Proof.
  split; [vm_compute; reflexivity|].
  apply (read_snippets_one_per_file sample_lib sample_fs clone_dir).
  vm_compute. reflexivity.
Defined.

(** ** get_code_review *)

(** C4, as stated, fails: a response with status 200 whose body has no
    [choices] makes [get_code_review] raise (a [KeyError]). *)
Lemma get_code_review_raises_iff_counterexample :
  ¬ (∀ (L : pylib) (E : env) (prompt api_key : str) (w : world) (r : response),
       requests_post E (review_request prompt api_key) = Ok r →
       (is_ok (get_code_review L E prompt api_key w).1 = false ↔ status_code r ≠ 200)).
Proof.
  intros H.
  destruct (H sample_lib env_200_empty (py "p") (py "k") world_stale response_200_empty
              eq_refl) as [Hraise _].
  by apply Hraise.
Qed.

(** Witness for C4: status 500 gives the error with code and body; status 200
    with content ["X"] gives ["X"]. *)
Lemma get_code_review_outcome_witness :
  (get_code_review sample_lib env_500 (py "p") (py "k") world_stale).1
    = Raise (Exc Exception (py "OpenRouter API error: 500 - Internal Server Error")) ∧
  (get_code_review sample_lib env_ok (py "p") (py "k") world_stale).1 = Ok (JStr (py "X")).
Proof.
  split.
  - apply (proj1 (get_code_review_outcome sample_lib env_500 (py "p") (py "k") world_stale
                    response_500 eq_refl)).
    vm_compute. discriminate.
  - refine (proj1 (proj2 (get_code_review_outcome sample_lib env_ok (py "p") (py "k")
              world_stale response_ok eq_refl))
              _ _ _ _ (JStr (py "X")) eq_refl eq_refl eq_refl eq_refl eq_refl).
Defined.

(** Witness for X11: an empty object and an empty list of choices. *)
Lemma get_code_review_malformed_witness :
  (get_code_review sample_lib env_200_empty (py "p") (py "k") world_stale).1
    = Raise (Exc KeyError (py "'choices'")) ∧
  (get_code_review sample_lib env_no_choice (py "p") (py "k") world_stale).1
    = Raise (Exc IndexError (py "list index out of range")).
Proof.
  split.
  - apply (proj1 (proj2 (get_code_review_malformed sample_lib env_200_empty (py "p") (py "k")
                           world_stale response_200_empty eq_refl eq_refl))
             [] eq_refl eq_refl).
  - apply (proj2 (proj2 (get_code_review_malformed sample_lib env_no_choice (py "p") (py "k")
                           world_stale response_no_choice eq_refl eq_refl))
             [(py "choices", JArr [])] eq_refl eq_refl).
Defined.

(** ** clone_repo *)


(** ** main: the scratch directory *)



(** ** main: the output file *)



(** Witness for C7: a clone with a text file and a licence only. *)
Lemma main_no_files_witness :
  (main sample_lib env_no_files (py "u") (py "k") [py "report.md"] world_stale).1 = Ok () ∧
  (∃ evs, log (main sample_lib env_no_files (py "u") (py "k") [py "report.md"] world_stale).2
            = log world_stale ++ evs ∧
          EvPrint no_files_line ∈ evs ∧ no_write evs ∧ no_post evs) ∧
  (outside_scratch [py "report.md"] →
     fs_lookup [py "report.md"]
       (fs (main sample_lib env_no_files (py "u") (py "k") [py "report.md"] world_stale).2)
       = fs_lookup [py "report.md"] (fs world_stale)).
Proof.
  apply (main_no_files sample_lib env_no_files (py "u") (py "k") [py "report.md"] world_stale
           (clone_repo sample_lib env_no_files (py "u") clone_dir world_stale).2).
  - vm_compute. reflexivity.
  - vm_compute. reflexivity.
Defined.

(** ** main: outcomes *)


(** Witness for X14: [git] exits with status 128; and [git] is killed by
    signal 9. *)
Lemma main_clone_failure_witness :
  ((main sample_lib env_clone_fails (py "u") (py "k") [py "report.md"] world_stale).1
     = Raise (Exc CalledProcessError
         (py "Command '['git', 'clone', '--depth=1', 'u', 'temp_repo_clone']' returned non-zero exit status 128.")) ∧
   ∃ evs, log (main sample_lib env_clone_fails (py "u") (py "k") [py "report.md"]
                 world_stale).2
            = log world_stale ++ evs ∧ no_post evs ∧ no_write evs) ∧
  ((main sample_lib env_clone_killed (py "u") (py "k") [py "report.md"] world_stale).1
     = Raise (Exc CalledProcessError
         (py "Command '['git', 'clone', '--depth=1', 'u', 'temp_repo_clone']' died with <Signals.SIGKILL: 9>.")) ∧
   ∃ evs, log (main sample_lib env_clone_killed (py "u") (py "k") [py "report.md"]
                 world_stale).2
            = log world_stale ++ evs ∧ no_post evs ∧ no_write evs).
Proof.
  split.
  - apply (main_clone_failure sample_lib env_clone_fails (py "u") (py "k") [py "report.md"]
             world_stale).
    + right. by exists sample_repo.
    + discriminate.
  - apply (main_clone_failure sample_lib env_clone_killed (py "u") (py "k") [py "report.md"]
             world_stale).
    + right. by exists sample_repo.
    + discriminate.
Defined.

(** Witness for X15: the endpoint answers with [null] as content. *)
Lemma main_review_not_a_string_witness :
  (main sample_lib env_null_content (py "u") (py "k") [py "report.md"] world_stale).1
    = Raise (Exc TypeError (py "data must be str, not NoneType")) ∧
  ∃ evs, log (main sample_lib env_null_content (py "u") (py "k") [py "report.md"]
                world_stale).2
           = log world_stale ++ evs ∧ no_write evs.
Proof.
  apply (main_review_not_a_string sample_lib env_null_content (py "u") (py "k")
           [py "report.md"] world_stale JNull).
  - vm_compute. reflexivity.
  - discriminate.
Defined.

(** ** main: the report *)

(** Witness for X16: the sample run ends with the review in [report.md]. *)
Lemma main_writes_review_witness :
  (main sample_lib env_ok (py "u") (py "k") [py "report.md"] world_stale).1 = Ok () ∧
  fs_lookup [py "report.md"]
    (fs (main sample_lib env_ok (py "u") (py "k") [py "report.md"] world_stale).2)
    = Some (File (Ok (py "X"))) ∧
  fs_lookup clone_dir
    (fs (main sample_lib env_ok (py "u") (py "k") [py "report.md"] world_stale).2) = None ∧
  EvWriteText [py "report.md"] (py "X")
    ∈ log (main sample_lib env_ok (py "u") (py "k") [py "report.md"] world_stale).2.
Proof.
  apply (main_writes_review sample_lib env_ok (py "u") (py "k") [py "report.md"] world_stale
           (py "X")
           [(py "temp_repo_clone", Dir sample_repo); (py "notes", File (Ok (py "keep me")))]).
  - vm_compute. reflexivity.
  - reflexivity.
  - discriminate.
  - reflexivity.
  - intros es'. discriminate.
Defined.

(** Witness for X17: the sample run with [--output temp_repo_clone/report.md]. *)
Lemma main_report_in_scratch_is_lost_witness :
  (main sample_lib env_ok (py "u") (py "k") (clone_dir ++ [py "report.md"]) world_stale).1
    = Ok () ∧
  EvWriteText (clone_dir ++ [py "report.md"]) (py "X")
    ∈ log (main sample_lib env_ok (py "u") (py "k") (clone_dir ++ [py "report.md"])
             world_stale).2 ∧
  fs_lookup (clone_dir ++ [py "report.md"])
    (fs (main sample_lib env_ok (py "u") (py "k") (clone_dir ++ [py "report.md"])
           world_stale).2) = None.
Proof.
  apply (main_report_in_scratch_is_lost sample_lib env_ok (py "u") (py "k") (py "report.md")
           world_stale (py "X")).
  - vm_compute. reflexivity.
  - reflexivity.
  - intros es'. vm_compute. discriminate.
Defined.

(** Witness for X18: the sample run. *)
Lemma main_posts_built_prompt_witness :
  ∃ snippets,
    read_snippets sample_lib
      (fs (clone_repo sample_lib env_ok (py "u") clone_dir world_stale).2) clone_dir
      sample_files [] = Ok snippets ∧
    length snippets = 3%nat ∧
    EvPost (review_request (build_prompt snippets (py "u")) (py "k"))
      ∈ log (main sample_lib env_ok (py "u") (py "k") [py "report.md"] world_stale).2.
Proof.
  apply (main_posts_built_prompt sample_lib env_ok (py "u") (py "k") [py "report.md"]
           world_stale (clone_repo sample_lib env_ok (py "u") clone_dir world_stale).2).
  - vm_compute. reflexivity.
  - vm_compute. reflexivity.
Defined.

(** Witness for X19: the review ends in a lone surrogate; [notes], which
    held a text before the run, is empty after it. *)
Lemma main_review_not_encodable_witness :
  fs_lookup [py "notes"] (fs world_stale) = Some (File (Ok (py "keep me"))) ∧
  (main sample_lib env_surrogate (py "u") (py "k") [py "notes"] world_stale).1
    = Raise (Exc UnicodeEncodeError
        (py "'utf-8' codec can't encode character '\ud800' in position 2: surrogates not allowed")) ∧
  fs_lookup [py "notes"]
    (fs (main sample_lib env_surrogate (py "u") (py "k") [py "notes"] world_stale).2)
    = Some (File (Ok [])) ∧
  fs_lookup clone_dir
    (fs (main sample_lib env_surrogate (py "u") (py "k") [py "notes"] world_stale).2) = None.
Proof.
  split; [reflexivity|].
  apply (main_review_not_encodable sample_lib env_surrogate (py "u") (py "k") [py "notes"]
           world_stale [79%N; 75%N; 55296%N]
           [(py "temp_repo_clone", Dir sample_repo); (py "notes", File (Ok (py "keep me")))]).
  - vm_compute. reflexivity.
  - reflexivity.
  - discriminate.
  - reflexivity.
  - intros es'. discriminate.
Defined.
